(** * Image format converter (WebP to JPEG): embedding and properties

    Shallow embedding of [ImageConverter/image-format-converter.py]:
    the single-image converter [convert_webp_to_jpeg], the directory
    walker [batch_convert_webp_to_jpeg] and the dispatch of [main].

    The script is a policy layer over three collaborators that are not
    part of the repository: Python's string and path functions, the
    file system, and the imaging library.  The first are modelled
    function by function, the file system as a tree of directories and
    regular files, and the imaging library by its pixel operations
    ([Image.new], [split], [paste]) together with an abstract codec
    (decode, encode, mode conversion) that may raise at any call.

    Conventions of the model:
    - strings are byte strings and paths are POSIX paths; [str.lower]
      changes [A]..[Z] only;
    - the file system holds directories and regular files (no symbolic
      links, no permissions), and paths are resolved from its root;
    - Python integers are [Z]; what is raised is an instance of
      [Exception], which [except Exception] catches;
    - standard output is the list of printed lines;
    - [main] is modelled from the parsed arguments on: the namespace
      that [parse_args] returns is its input. *)

From Stdlib Require Import ZArith List Bool Ascii String Lia.
Import ListNotations.

Set Warnings "-register-all".

Open Scope string_scope.
Open Scope Z_scope.

(** ** Python strings *)

Module PyStr.

(** [s[i:]] and [s[:i]] for an index [0 <= i]. *)
Fixpoint drop (n : nat) (s : string) : string :=
  match n, s with
  | O, _ => s
  | S _, EmptyString => EmptyString
  | S n', String _ s' => drop n' s'
  end.

Fixpoint take (n : nat) (s : string) : string :=
  match n, s with
  | O, _ => EmptyString
  | S _, EmptyString => EmptyString
  | S n', String a s' => String a (take n' s')
  end.

Definition slice_from (s : string) (i : Z) : string := drop (Z.to_nat i) s.
Definition slice_to (s : string) (i : Z) : string := take (Z.to_nat i) s.

(** [s[i:i+1]]: the character at [i], or the empty string past the end. *)
Definition char_at (s : string) (i : Z) : string :=
  take 1 (drop (Z.to_nat i) s).

(** [s.rfind(c)] for a one-character [c]: the highest index of [c] in
    [s], or [-1]. *)
Fixpoint rfind_from (s : string) (c : ascii) (i last : Z) : Z :=
  match s with
  | EmptyString => last
  | String a s' => rfind_from s' c (i + 1) (if Ascii.eqb a c then i else last)
  end.

Definition rfind (s : string) (c : ascii) : Z := rfind_from s c 0 (-1).

(** [s.startswith(t)] and [s.endswith(t)]. *)
Fixpoint startswith (s t : string) : bool :=
  match t, s with
  | EmptyString, _ => true
  | String b t', String a s' => Ascii.eqb a b && startswith s' t'
  | String _ _, EmptyString => false
  end.

Definition endswith (s t : string) : bool :=
  (String.length t <=? String.length s)%nat
  && String.eqb (drop (String.length s - String.length t) s) t.

(** [s.lower()].  Names are byte strings here; only [A]..[Z] change, which
    is all that can turn a character into one of [.webp]. *)
Definition lower_char (c : ascii) : ascii :=
  let n := nat_of_ascii c in
  if ((65 <=? n) && (n <=? 90))%nat then ascii_of_nat (n + 32) else c.

Fixpoint lower (s : string) : string :=
  match s with
  | EmptyString => EmptyString
  | String a s' => String (lower_char a) (lower s')
  end.

(** Membership of a character. *)
Fixpoint contains (c : ascii) (s : string) : bool :=
  match s with
  | EmptyString => false
  | String a s' => Ascii.eqb a c || contains c s'
  end.

(** Whether every character of [s] is [c]. *)
Fixpoint all_chars (c : ascii) (s : string) : bool :=
  match s with
  | EmptyString => true
  | String a s' => Ascii.eqb a c && all_chars c s'
  end.

End PyStr.

(** ** [os.path] *)

Module OsPath.
Import PyStr.

Definition sep : ascii := "/"%char.
Definition extsep : ascii := "."%char.

(** The loop of [genericpath._splitext] that skips the leading dots of the
    last component: [true] when some character in [fi, fi + n) is not a
    dot. *)
Fixpoint has_non_dot (p : string) (filenameIndex : Z) (n : nat) : bool :=
  match n with
  | O => false
  | S n' =>
      if negb (String.eqb (char_at p filenameIndex) (String extsep EmptyString))
      then true
      else has_non_dot p (filenameIndex + 1) n'
  end.

(** [os.path.splitext(p)] (posixpath). *)
Definition splitext (p : string) : string * string :=
  let sepIndex := rfind p sep in
  let dotIndex := rfind p extsep in
  if (sepIndex <? dotIndex)
     && has_non_dot p (sepIndex + 1) (Z.to_nat (dotIndex - (sepIndex + 1)))
  then (slice_to p dotIndex, slice_from p dotIndex)
  else (p, EmptyString).

(** [os.path.join(a, b)] (posixpath). *)
Definition join (a b : string) : string :=
  if startswith b (String sep EmptyString) then b
  else if String.eqb a EmptyString || endswith a (String sep EmptyString)
       then a ++ b
       else a ++ String sep EmptyString ++ b.

(** What [join] puts before a relative second argument: the first
    argument, followed by a separator unless it is empty or ends in one. *)
Definition prefix_of (a : string) : string :=
  if String.eqb a "" || endswith a (String sep "") then a else a ++ String sep "".


End OsPath.

(** ** Exceptions and results *)

(** A Python exception instance (a subclass of [Exception]): its class
    name and the text [str(e)] that the converter prints. *)
Record exn : Type := Exn { exn_class : string; exn_text : string }.

Definition str (e : exn) : string := exn_text e.

(** The result of a call that either returns or raises. *)
Inductive result (A : Type) : Type :=
| Ok (a : A)
| Err (e : exn).
Arguments Ok {A} a.
Arguments Err {A} e.

(** ** The imaging library: bitmaps *)

Module Imaging.

(** A decoded bitmap: its mode, its size (width, height) and its pixels
    in row order, each pixel the list of its band values. *)
Record image : Type := mkImage {
  mode : string;
  size : Z * Z;
  pixels : list (list Z)
}.

(** [Image.getbands()]. *)
Definition getbands (m : string) : list string :=
  if String.eqb m "RGBA" then ["R"; "G"; "B"; "A"]
  else if String.eqb m "LA" then ["L"; "A"]
  else if String.eqb m "RGB" then ["R"; "G"; "B"]
  else if String.eqb m "L" then ["L"]
  else if String.eqb m "P" then ["P"]
  else if String.eqb m "1" then ["1"]
  else if String.eqb m "CMYK" then ["C"; "M"; "Y"; "K"]
  else [].

(** [Image.new(mode, size, color)]. *)
Definition Image_new (m : string) (sz : Z * Z) (color : list Z) : result image :=
  let (w, h) := sz in
  if (w <? 0) || (h <? 0)
  then Err (Exn "ValueError" "Width and height must be >= 0")
  else Ok (mkImage m sz (repeat color (Z.to_nat (w * h)))).

(** [img.split()]: one single-band ("L") image per band. *)
Definition band (img : image) (i : nat) : image :=
  mkImage "L" (size img) (map (fun px => [nth i px 0]) (pixels img)).

Definition split (img : image) : list image :=
  map (band img) (seq 0 (List.length (getbands (mode img)))).

(** [l[i]] for a literal index [i >= 0]. *)
Definition getitem {A : Type} (l : list A) (i : nat) : result A :=
  match nth_error l i with
  | Some a => Ok a
  | None => Err (Exn "IndexError" "tuple index out of range")
  end.

(** The library's integer blend of two 8-bit values under an 8-bit mask
    (its [DIV255] and [BLEND]), and the store into an 8-bit band. *)
Definition DIV255 (a : Z) : Z :=
  let tmp := a + 128 in
  Z.shiftr (Z.shiftr tmp 8 + tmp) 8.

Definition BLEND (mask in1 in2 : Z) : Z :=
  DIV255 (in1 * (255 - mask) + in2 * mask).

Definition u8 (x : Z) : Z := Z.land x 255.

(** The colour a pixel of the pasted image contributes to an RGB
    destination: the library stores "LA" as (L, L, L, A) and "RGBA" as
    (R, G, B, A), and the paste blends the first three stored bytes. *)
Definition rgb_bytes (m : string) (px : list Z) : list Z :=
  if String.eqb m "LA"
  then [nth 0 px 0; nth 0 px 0; nth 0 px 0]
  else firstn 3 px.

Definition blend_pixel (m : string) (entry : list Z * list Z * list Z) : list Z :=
  let '(out, inp, msk) := entry in
  let a := nth 0 msk 0 in
  map (fun oi => u8 (BLEND a (fst oi) (snd oi))) (combine out (rgb_bytes m inp)).

(** [dest.paste(src, mask=mask)] in the case the script uses it: an "RGB"
    destination, a source in "RGBA" or "LA" of the same size pasted at the
    origin (no mode conversion happens for these), and an "L" mask. *)
Definition paste (dest src mask : image) : result image :=
  if negb (Z.eqb (fst (size src)) (fst (size mask))
           && Z.eqb (snd (size src)) (snd (size mask))
           && Z.eqb (fst (size src)) (fst (size dest))
           && Z.eqb (snd (size src)) (snd (size dest)))
  then Err (Exn "ValueError" "images do not match")
  else Ok (mkImage (mode dest) (size dest)
             (map (blend_pixel (mode src))
                  (combine (combine (pixels dest) (pixels src)) (pixels mask)))).

(** A bitmap as a decoder delivers it: as many pixels as its size says,
    each with one 8-bit value per band of its mode. *)
Definition byte_value (v : Z) : bool := (0 <=? v) && (v <=? 255).

Definition well_formed (img : image) : bool :=
  (0 <=? fst (size img)) && (0 <=? snd (size img))
  && Nat.eqb (List.length (pixels img)) (Z.to_nat (fst (size img) * snd (size img)))
  && forallb (fun px => Nat.eqb (List.length px) (List.length (getbands (mode img)))
                        && forallb byte_value px) (pixels img).

(** The alpha value of a pixel: band 3 of "RGBA", band 1 of "LA". *)
Definition alpha_of (m : string) (px : list Z) : Z :=
  if String.eqb m "RGBA" then nth 3 px 0 else nth 1 px 0.

End Imaging.

(** The codec of the imaging library, which the script only calls: the
    decoder behind [Image.open], the JPEG encoder behind
    [save(path, "JPEG", quality=q)] and [Image.convert(mode)].  Each may
    raise. *)
Class Codec : Type := {
  decode : string -> result Imaging.image;
  encode_jpeg : Imaging.image -> Z -> result string;
  convert : Imaging.image -> string -> result Imaging.image
}.

(** ** The file system *)

Module FileSystem.

(** A tree of directories and regular files; a directory lists its
    entries in the order the operating system enumerates them. *)
Inductive node : Type :=
| File (data : string)
| Dir (entries : list (string * node)).

Fixpoint find_entry (name : string) (es : list (string * node)) : option node :=
  match es with
  | [] => None
  | (k, child) :: rest => if String.eqb k name then Some child else find_entry name rest
  end.

(** The node at a list of plain entry names below [n]. *)
Fixpoint get (n : node) (cs : list string) : option node :=
  match cs with
  | [] => Some n
  | c :: cs' =>
      match n with
      | Dir es =>
          match find_entry c es with
          | Some child => get child cs'
          | None => None
          end
      | File _ => None
      end
  end.

(** [p.split("/")]. *)
Fixpoint split_sep (p : string) : list string :=
  match p with
  | EmptyString => [EmptyString]
  | String a p' =>
      if Ascii.eqb a "/"%char then EmptyString :: split_sep p'
      else match split_sep p' with
           | c :: cs => String a c :: cs
           | [] => [String a EmptyString]
           end
  end.

(** Path resolution, component by component from the root (which is also
    the working directory): every component is looked up in a directory;
    an empty component and [.] stay, [..] goes up. *)
Definition step (cur : list string) (c : string) : list string :=
  if String.eqb c "" || String.eqb c "." then cur
  else if String.eqb c ".." then removelast cur
  else cur ++ [c].

Fixpoint walk_components (fs : node) (cur : list string) (comps : list string)
  : option (list string) :=
  match comps with
  | [] => Some cur
  | c :: cs =>
      match get fs cur with
      | Some (Dir _) => walk_components fs (step cur c) cs
      | _ => None
      end
  end.

Definition resolve (fs : node) (p : string) : option (list string) :=
  if String.eqb p "" then None else walk_components fs [] (split_sep p).

Definition lookup (fs : node) (p : string) : option node :=
  match resolve fs p with
  | Some cs => get fs cs
  | None => None
  end.

(** [os.path.isdir(p)] and [os.path.exists(p)]. *)
Definition isdir (fs : node) (p : string) : bool :=
  match lookup fs p with
  | Some (Dir _) => true
  | _ => false
  end.

Definition exists_ (fs : node) (p : string) : bool :=
  match lookup fs p with
  | Some _ => true
  | None => false
  end.

(** [os.listdir(p)]. *)
Definition listdir (fs : node) (p : string) : result (list string) :=
  match lookup fs p with
  | Some (Dir es) => Ok (map fst es)
  | Some (File _) => Err (Exn "NotADirectoryError" ("[Errno 20] Not a directory: '" ++ p ++ "'"))
  | None => Err (Exn "FileNotFoundError" ("[Errno 2] No such file or directory: '" ++ p ++ "'"))
  end.

(** [open(p, "rb").read()]. *)
Definition read_file (fs : node) (p : string) : result string :=
  match lookup fs p with
  | Some (File data) => Ok data
  | Some (Dir _) => Err (Exn "IsADirectoryError" ("[Errno 21] Is a directory: '" ++ p ++ "'"))
  | None => Err (Exn "FileNotFoundError" ("[Errno 2] No such file or directory: '" ++ p ++ "'"))
  end.

(** Replacing the entry [name] of a directory listing, or adding it. *)
Fixpoint set_entry (name : string) (new : node) (es : list (string * node))
  : list (string * node) :=
  match es with
  | [] => [(name, new)]
  | (k, child) :: rest =>
      if String.eqb k name then (k, new) :: rest
      else (k, child) :: set_entry name new rest
  end.

(** Applying [f] to the entry [name] of a directory listing. *)
Definition update_entry (name : string) (f : node -> node)
  : list (string * node) -> list (string * node) :=
  fix go (l : list (string * node)) : list (string * node) :=
    match l with
    | [] => []
    | (k, child) :: rest =>
        if String.eqb k name then (k, f child) :: rest
        else (k, child) :: go rest
    end.

(** The tree with entry [name] of the directory at [cs] set to [new]. *)
Fixpoint put (n : node) (cs : list string) (name : string) (new : node) {struct n} : node :=
  match n with
  | File d => File d
  | Dir es =>
      match cs with
      | [] => Dir (set_entry name new es)
      | c :: cs' => Dir (update_entry c (fun child => put child cs' name new) es)
      end
  end.

(** [open(p, "wb")]: the directory the file lies in must exist and the
    path must not name a directory.  The handle is the place of the file:
    its directory and its name. *)
Definition open_wb (fs : node) (p : string) : result (list string * string) :=
  let comps := split_sep p in
  let name := last comps "" in
  if String.eqb p "" then
    Err (Exn "FileNotFoundError" ("[Errno 2] No such file or directory: '" ++ p ++ "'"))
  else
    match walk_components fs [] (removelast comps) with
    | None => Err (Exn "FileNotFoundError" ("[Errno 2] No such file or directory: '" ++ p ++ "'"))
    | Some parent =>
        match get fs parent with
        | Some (Dir _) =>
            if String.eqb name "" || String.eqb name "." || String.eqb name ".." then
              Err (Exn "IsADirectoryError" ("[Errno 21] Is a directory: '" ++ p ++ "'"))
            else
              match get fs (parent ++ [name]) with
              | Some (Dir _) =>
                  Err (Exn "IsADirectoryError" ("[Errno 21] Is a directory: '" ++ p ++ "'"))
              | _ => Ok (parent, name)
              end
        | Some (File _) =>
            Err (Exn "NotADirectoryError" ("[Errno 20] Not a directory: '" ++ p ++ "'"))
        | None =>
            Err (Exn "FileNotFoundError" ("[Errno 2] No such file or directory: '" ++ p ++ "'"))
        end
    end.

(** The tree once the file behind a handle holds [data]. *)
Definition store (fs : node) (handle : list string * string) (data : string) : node :=
  put fs (fst handle) (snd handle) (File data).

(** The names [os.walk] sorts an enumerated directory into: directories
    and everything else, each in listing order. *)
Definition is_dir (n : node) : bool :=
  match n with Dir _ => true | File _ => false end.

Definition dirnames (es : list (string * node)) : list string :=
  map fst (filter (fun e => is_dir (snd e)) es).

Definition filenames (es : list (string * node)) : list string :=
  map fst (filter (fun e => negb (is_dir (snd e))) es).

(** What [os.walk(top)] yields, top-down: for the directory at path [top]
    with node [n], the triple [(top, dirnames, filenames)], then the walk
    of each subdirectory in listing order.  A [top] that is not a
    directory yields nothing (the error of listing it is swallowed). *)
Fixpoint walk_node (top : string) (n : node) {struct n}
  : list (string * list string * list string) :=
  match n with
  | File _ => []
  | Dir es =>
      (top, dirnames es, filenames es)
      :: flat_map (fun e => walk_node (OsPath.join top (fst e)) (snd e)) es
  end.

Definition os_walk (fs : node) (top : string) : list (string * list string * list string) :=
  match lookup fs top with
  | Some n => walk_node top n
  | None => []
  end.

(** Entry names as a file system has them: not empty, not [.] or [..],
    without a separator, and unique within their directory. *)
Definition plain_name (name : string) : bool :=
  negb (String.eqb name "") && negb (String.eqb name ".")
  && negb (String.eqb name "..") && negb (PyStr.contains "/"%char name).

Fixpoint unique_names (names : list string) : bool :=
  match names with
  | [] => true
  | k :: rest => negb (existsb (String.eqb k) rest) && unique_names rest
  end.

Fixpoint well_formed (n : node) : bool :=
  match n with
  | File _ => true
  | Dir es =>
      forallb plain_name (map fst es)
      && unique_names (map fst es)
      && forallb (fun e => well_formed (snd e)) es
  end.

(** The nesting depth of directories below a node. *)
Fixpoint height (n : node) : nat :=
  match n with
  | File _ => O
  | Dir es => S (list_max (map (fun e => height (snd e)) es))
  end.

(** Two component paths part ways: after a common start they continue
    with different names. *)
Definition diverge (a b : list string) : Prop :=
  exists common x y a' b',
    a = (common ++ x :: a')%list /\ b = (common ++ y :: b')%list /\ x <> y.

(** [dirs_kept fs fs']: every directory of [fs] is still a directory in
    [fs']. *)
Definition dirs_kept (fs fs' : node) : Prop :=
  forall cs es, get fs cs = Some (Dir es) -> exists es', get fs' cs = Some (Dir es').

(** [untouched cs fs fs']: from [fs] to [fs'] nothing changed away from
    the directory at [cs] nor below its subdirectories: only entries of
    that directory that are not directories may differ. *)
Definition untouched (cs : list string) (fs fs' : node) : Prop :=
  forall P,
    diverge cs P
    \/ (exists d rest x, P = (cs ++ d :: rest)%list /\ get fs (cs ++ [d]) = Some (Dir x)) ->
    get fs' P = get fs P.

End FileSystem.

(** ** Effects: the world, exceptions, printing *)

Import FileSystem.

(** What the script can observe and change: the file system and the lines
    printed on standard output. *)
Record World : Type := mkWorld {
  fs : node;
  stdout : list string
}.

Inductive Outcome (A : Type) : Type :=
| Return (a : A) (w : World)
| Raise (e : exn) (w : World).
Arguments Return {A} a w.
Arguments Raise {A} e w.

(** A computation: it runs in a world and returns or raises, leaving the
    world it reached. *)
Definition M (A : Type) : Type := World -> Outcome A.

Definition ret {A : Type} (a : A) : M A := fun w => Return a w.

Definition bind {A B : Type} (m : M A) (k : A -> M B) : M B :=
  fun w =>
    match m w with
    | Return a w' => k a w'
    | Raise e w' => Raise e w'
    end.

Notation "x <- m ;; k" := (bind m (fun x => k))
  (at level 61, m at next level, right associativity).
Notation "m ;;; k" := (bind m (fun _ => k))
  (at level 61, right associativity).

(** A pure library call that may raise. *)
Definition lift {A : Type} (r : result A) : M A :=
  fun w =>
    match r with
    | Ok a => Return a w
    | Err e => Raise e w
    end.

(** [try: body  except Exception as e: handler(e)]. *)
Definition try_except {A : Type} (body : M A) (handler : exn -> M A) : M A :=
  fun w =>
    match body w with
    | Return a w' => Return a w'
    | Raise e w' => handler e w'
    end.

(** [print(line)]. *)
Definition print (line : string) : M unit :=
  fun w => Return tt (mkWorld (fs w) (stdout w ++ [line])).

(** [for x in l: body(x)]. *)
Fixpoint for_each {A : Type} (l : list A) (body : A -> M unit) : M unit :=
  match l with
  | [] => ret tt
  | x :: rest => body x ;;; for_each rest body
  end.

(** ** The script *)

Section Script.

Context {codec : Codec}.

Import PyStr OsPath Imaging.

(** [Image.open(path)]: the file is read and decoded. *)
Definition Image_open (path : string) : M image :=
  fun w =>
    match read_file (fs w) path with
    | Ok data => lift (decode data) w
    | Err e => Raise e w
    end.

(** [img.save(path, "JPEG", quality=quality)]: the library opens [path]
    for writing, which creates or empties the file, then runs the encoder;
    the file ends up holding what the encoder produced.  When the encoder
    raises, a file that was created is removed again and a file that was
    there before stays emptied. *)
Definition Image_save (img : image) (path : string) (quality : Z) : M unit :=
  fun w =>
    let created := negb (exists_ (fs w) path) in
    match open_wb (fs w) path with
    | Err e => Raise e w
    | Ok handle =>
        let opened := store (fs w) handle "" in
        match encode_jpeg img quality with
        | Ok data => Return tt (mkWorld (store (fs w) handle data) (stdout w))
        | Err e => Raise e (if created then w else mkWorld opened (stdout w))
        end
    end.

(** Lines 29-31: the output path when none is given. *)
Definition default_output_path (input_path : string) (output_path : option string) : string :=
  match output_path with
  | None =>
      let filename := fst (splitext input_path) in
      filename ++ ".jpg"
  | Some given => given
  end.

(** [img.mode in ("RGBA", "LA")]. *)
Definition mode_in (m : string) (l : list string) : bool :=
  existsb (String.eqb m) l.

Definition white : list Z := [255; 255; 255].

(** Lines 25-44: the body of the [try] block. *)
Definition conversion_steps (input_path : string) (output_path : option string)
    (quality : Z) : M (option string) :=
  img <- Image_open input_path ;;
  let output_path := default_output_path input_path output_path in
  (if mode_in (mode img) ["RGBA"; "LA"] then
     background <- lift (Image_new "RGB" (size img) white) ;;
     mask <- lift (if String.eqb (mode img) "RGBA"
                   then getitem (split img) 3
                   else getitem (split img) 1) ;;
     background <- lift (paste background img mask) ;;
     Image_save background output_path quality
   else
     rgb <- lift (convert img "RGB") ;;
     Image_save rgb output_path quality) ;;;
  print ("Converted: " ++ input_path ++ " -> " ++ output_path) ;;;
  ret (Some output_path).

(** Lines 45-47: the handler of [except Exception as e]. *)
Definition error_line (input_path : string) (e : exn) : string :=
  "Error converting " ++ input_path ++ ": " ++ str e.

Definition report_error (input_path : string) (e : exn) : M (option string) :=
  print (error_line input_path e) ;;;
  ret None.

(** Lines 11-47. *)
Definition convert_webp_to_jpeg (input_path : string) (output_path : option string)
    (quality : Z) : M (option string) :=
  try_except
    (conversion_steps input_path output_path quality)
    (report_error input_path).

(** [file.lower().endswith('.webp')]. *)
Definition is_webp (file : string) : bool := endswith (lower file) ".webp".

(** Lines 49-66.  [os.walk] is taken over the tree as it is when the walk
    starts: the only files written during the walk are JPEG siblings in
    directories that have already been listed, so the generator, which
    lists each directory when it is reached, yields the same triples
    ([walk_lazy] below, and [os_walk_lazy] for the agreement). *)
Definition batch_convert_webp_to_jpeg (directory : string) (quality : Z)
    (recursive : bool) : M unit :=
  if recursive then
    fun w =>
      for_each (os_walk (fs w) directory)
        (fun '(root, _, files) =>
           for_each files
             (fun file =>
                if is_webp file
                then convert_webp_to_jpeg (join root file) None quality ;;; ret tt
                else ret tt)) w
  else
    files <- (fun w => lift (listdir (fs w) directory) w) ;;
    for_each files
      (fun file =>
         if is_webp file
         then convert_webp_to_jpeg (join directory file) None quality ;;; ret tt
         else ret tt).

(** [os.walk] as the generator it is: a directory is listed when the loop
    reaches it, in the world the conversions so far have left, and its
    subdirectories are walked after the loop body has run on it.  [fuel]
    bounds the depth. *)
Definition walk_body (quality : Z) (triple : string * list string * list string)
  : M unit :=
  let '(root, _, files) := triple in
  for_each files
    (fun file =>
       if is_webp file
       then convert_webp_to_jpeg (join root file) None quality ;;; ret tt
       else ret tt).

Fixpoint walk_lazy (fuel : nat) (top : string) (quality : Z) : M unit :=
  match fuel with
  | O => ret tt
  | S fuel' =>
      fun w =>
        match lookup (fs w) top with
        | Some (Dir es) =>
            (walk_body quality (top, dirnames es, filenames es) ;;;
             for_each (dirnames es)
               (fun d => walk_lazy fuel' (join top d) quality)) w
        | _ => Return tt w
        end
  end.

(** What the generator and the walk of the tree at the start have in
    common, for a depth bound and a quality: on a well-formed directory
    within the bound both run to the same world, keep every directory and
    change nothing that parts ways with the directory. *)
Definition lazy_agrees (fuel : nat) (quality : Z) : Prop :=
  forall (top : string) (n : node) (cs : list string) (w : World),
    resolve (fs w) top = Some cs ->
    get (fs w) cs = Some n ->
    FileSystem.well_formed n = true ->
    (height n < fuel)%nat ->
    exists w',
      walk_lazy fuel top quality w = Return tt w'
      /\ for_each (walk_node top n) (walk_body quality) w = Return tt w'
      /\ dirs_kept (fs w) (fs w')
      /\ (forall P, diverge cs P -> get (fs w') P = get (fs w) P).

(** The namespace [parser.parse_args()] returns: [command] is the chosen
    subcommand or [None]; the other attributes are those of [webp2jpeg]. *)
Record Args : Type := mkArgs {
  command : option string;
  input : string;
  output : option string;
  quality : Z;
  recursive : bool
}.

(** Truth value of [args.output]: [None] and the empty string are false. *)
Definition truthy (o : option string) : bool :=
  match o with
  | Some s => negb (String.eqb s "")
  | None => false
  end.

Definition warning_line : string :=
  "Warning: Output path is ignored when processing a directory".

(** What [parser.print_help()] prints. *)
Definition help_message : string :=
  "usage: image-format-converter.py [-h] {webp2jpeg} ...".

Definition print_help : M unit := print help_message.

Definition command_is (c : option string) (name : string) : bool :=
  match c with
  | Some s => String.eqb s name
  | None => false
  end.

(** Lines 81-89 of [main], after the arguments are parsed. *)
Definition main (args : Args) : M unit :=
  if command_is (command args) "webp2jpeg" then
    isdir_input <- (fun w => Return (isdir (fs w) (input args)) w) ;;
    if isdir_input : bool then
      (if truthy (output args) then print warning_line else ret tt) ;;;
      batch_convert_webp_to_jpeg (input args) (quality args) (recursive args)
    else
      convert_webp_to_jpeg (input args) (output args) (quality args) ;;; ret tt
  else
    print_help.

(** ** Vocabulary for the properties *)

(** The bitmap the converter hands to the encoder for a decoded [img]:
    the composite over white for the two alpha modes, the RGB conversion
    otherwise (lines 34-41 without the [save] calls). *)
Definition bitmap_to_encode (img : image) : result image :=
  if mode_in (mode img) ["RGBA"; "LA"] then
    match Image_new "RGB" (size img) white with
    | Ok background =>
        match (if String.eqb (mode img) "RGBA"
               then getitem (split img) 3
               else getitem (split img) 1) with
        | Ok mask => paste background img mask
        | Err e => Err e
        end
    | Err e => Err e
    end
  else convert img "RGB".

(** The line a successful conversion prints (line 43). *)
Definition confirm_line (input_path output_path : string) : string :=
  "Converted: " ++ input_path ++ " -> " ++ output_path.

(** The converter from the point where the bitmap to encode is known:
    encode and write it, confirm, and report whatever was raised. *)
Definition save_and_report (input_path output_path : string) (quality : Z)
    (bitmap : result image) : M (option string) :=
  try_except
    (img <- lift bitmap ;;
     Image_save img output_path quality ;;;
     print (confirm_line input_path output_path) ;;;
     ret (Some output_path))
    (report_error input_path).

(** The entries the walker tests, as (directory path, entry name), in
    order, for the tree as it is when the walk starts: every entry of the
    directory without recursion, the file names of every walked directory
    with it. *)
Definition considered (tree : node) (directory : string) (recursive : bool)
  : list (string * string) :=
  if recursive then
    flat_map (fun '(root, _, files) => map (pair root) files) (os_walk tree directory)
  else
    match listdir tree directory with
    | Ok files => map (pair directory) files
    | Err _ => []
    end.

(** The paths the walker hands to the converter, in order. *)
Definition conversion_targets (tree : node) (directory : string) (recursive : bool)
  : list string :=
  map (fun e => join (fst e) (snd e))
      (filter (fun e => is_webp (snd e)) (considered tree directory recursive)).

(** A matching iteration of the walker: the call, its result dropped. *)
Definition attempt (quality : Z) (path : string) : M unit :=
  convert_webp_to_jpeg path None quality ;;; ret tt.

(** [file_in root n dir name]: below the directory [n] at path [root],
    the directory at path [dir] has a regular file [name]. *)
Inductive file_in : string -> node -> string -> string -> Prop :=
| file_here (root : string) (es : list (string * node)) (name data : string) :
    In (name, File data) es ->
    file_in root (Dir es) root name
| file_deeper (root : string) (es : list (string * node)) (d : string) (child : node)
    (dir name : string) :
    In (d, child) es ->
    file_in (join root d) child dir name ->
    file_in root (Dir es) dir name.

(** The one line an attempt of the walker on [path] prints: the
    confirmation, which names the derived output path, or an error
    report. *)
Definition reports (path line : string) : Prop :=
  line = confirm_line path (default_output_path path None)
  \/ (exists e, line = error_line path e).

(** The extension of a file name, in lower case, in the sense of
    [os.path.splitext], the one the converter replaces by [.jpg]. *)
Definition extension (name : string) : string := lower (snd (splitext name)).

End Script.

(** ** A stand-in codec and sample worlds

    A small lossless codec to run the script on concrete inputs.  A file
    holds the number of bands as a digit ([1] "L", [2] "LA", [3] "RGB",
    [4] "RGBA"), the width and the height as one byte each, then the band
    values.  Its encoder writes "RGB" only and rejects a quality outside
    1..100. *)

Module Raw.
Import Imaging.

Definition values_of (s : string) : list Z :=
  map (fun c => Z.of_nat (nat_of_ascii c)) (list_ascii_of_string s).

Definition bytes_of (l : list Z) : string :=
  string_of_list_ascii (map (fun v => ascii_of_nat (Z.to_nat v)) l).

Fixpoint chunks (fuel : nat) (n : nat) (l : list Z) : list (list Z) :=
  match fuel, l with
  | O, _ => []
  | _, [] => []
  | S fuel', _ => firstn n l :: chunks fuel' n (skipn n l)
  end.

Definition mode_of_tag (t : Z) : option string :=
  if t =? 49 then Some "L"
  else if t =? 50 then Some "LA"
  else if t =? 51 then Some "RGB"
  else if t =? 52 then Some "RGBA"
  else None.

Definition cannot_identify : exn :=
  Exn "UnidentifiedImageError" "cannot identify image file".

Definition raw_decode (data : string) : result image :=
  match values_of data with
  | t :: w :: h :: body =>
      match mode_of_tag t with
      | Some m =>
          let n := List.length (getbands m) in
          if Nat.eqb (List.length body) (Z.to_nat (w * h) * n)
          then Ok (mkImage m (w, h) (chunks (List.length body) n body))
          else Err cannot_identify
      | None => Err cannot_identify
      end
  | _ => Err cannot_identify
  end.

Definition raw_encode (img : image) (quality : Z) : result string :=
  if negb (String.eqb (mode img) "RGB") then
    Err (Exn "OSError" ("cannot write mode " ++ mode img ++ " as JPEG"))
  else if (quality <? 1) || (100 <? quality) then
    Err (Exn "ValueError" "Invalid quality setting")
  else
    Ok (bytes_of (51 :: fst (size img) :: snd (size img) :: List.concat (pixels img))).

Definition raw_convert (img : image) (m : string) : result image :=
  if negb (String.eqb m "RGB") then
    Err (Exn "ValueError" "conversion not supported")
  else if String.eqb (mode img) "RGB" then Ok img
  else if String.eqb (mode img) "L" then
    Ok (mkImage "RGB" (size img)
          (map (fun px => [nth 0 px 0; nth 0 px 0; nth 0 px 0]) (pixels img)))
  else if String.eqb (mode img) "RGBA" || String.eqb (mode img) "LA" then
    Ok (mkImage "RGB" (size img) (map (rgb_bytes (mode img)) (pixels img)))
  else Err (Exn "ValueError" "conversion not supported").

Definition codec : Codec := {|
  decode := raw_decode;
  encode_jpeg := raw_encode;
  convert := raw_convert
|}.

(** A 2x1 "RGBA" image: a transparent red pixel and an opaque blue one. *)
Definition rgba_file : string := bytes_of [52; 2; 1; 200; 10; 10; 0; 10; 20; 230; 255].

(** A 1x1 "RGB" image. *)
Definition rgb_file : string := bytes_of [51; 1; 1; 7; 8; 9].

(** A 1x2 "LA" image: an opaque grey pixel and a transparent one. *)
Definition la_file : string := bytes_of [50; 1; 2; 90; 255; 40; 0].

(** The directory of the scenario: [pics/] with [a.webp], [b.WEBP] and
    [c.png]. *)
Definition pics : node :=
  Dir [("pics", Dir [("a.webp", File rgba_file);
                     ("b.WEBP", File rgb_file);
                     ("c.png", File la_file)])].

(** A tree with a nested directory, a file that does not decode, a
    directory whose name ends in [.webp] and a file named [.webp]. *)
Definition tree : node :=
  Dir [("pics", Dir [("a.webp", File rgba_file);
                     ("bad.webp", File "not an image");
                     ("dir.webp", Dir [("x.webp", File rgb_file)]);
                     ("sub", Dir [("n.WebP", File la_file); ("notes.txt", File "text")]);
                     (".webp", File rgb_file);
                     ("z.webp", File rgb_file)])].

Definition world_of (n : node) : World := mkWorld n [].

End Raw.

(** * Properties *)

(** ** Strings and paths *)

Module PathFacts.
Import PyStr OsPath.

(** [splitext] and [join] on the paths of the scenarios. *)
Example splitext_photo : splitext "pics/photo.webp" = ("pics/photo", ".webp").
Proof. reflexivity. Qed.

Example splitext_two_dots : splitext "pics/x.tar.gz" = ("pics/x.tar", ".gz").
Proof. reflexivity. Qed.

Example splitext_dotted_directory : splitext "a/b.c/d" = ("a/b.c/d", "").
Proof. reflexivity. Qed.

Example splitext_leading_dot : splitext "pics/.webp" = ("pics/.webp", "").
Proof. reflexivity. Qed.

Example join_plain_directory : join "pics" "a.webp" = "pics/a.webp".
Proof. reflexivity. Qed.

Example join_trailing_separator : join "pics/" "a.webp" = "pics/a.webp".
Proof. reflexivity. Qed.

Example lower_mixed_case : lower "b.WeBP" = "b.webp".
Proof. reflexivity. Qed.

Lemma take_drop (n : nat) (s : string) : take n s ++ drop n s = s.
Proof.
  revert s; induction n as [|n IH]; intros [|a s]; simpl; try reflexivity.
  now rewrite IH.
Qed.


Lemma take_length (n : nat) (s : string) :
  (n <= String.length s)%nat -> String.length (take n s) = n.
Proof.
  revert s; induction n as [|n IH]; intros [|a s] H; simpl in *; try reflexivity; try lia.
  rewrite IH; [reflexivity | lia].
Qed.

Lemma contains_app (c : ascii) (s t : string) :
  contains c (s ++ t) = contains c s || contains c t.
Proof.
  induction s as [|a s IH]; simpl; [reflexivity|].
  now rewrite IH, orb_assoc.
Qed.

(** [rfind] either finds nothing or an index inside the string. *)
Lemma rfind_from_range (s : string) (c : ascii) (i last : Z) :
  rfind_from s c i last = last
  \/ (i <= rfind_from s c i last < i + Z.of_nat (String.length s)).
Proof.
  revert i last; induction s as [|a s IH]; intros i last; simpl; [now left|].
  destruct (IH (i + 1) (if Ascii.eqb a c then i else last)) as [E|E].
  - rewrite E. destruct (Ascii.eqb a c); [right; lia | now left].
  - right; lia.
Qed.

Lemma rfind_from_absent (s : string) (c : ascii) (i last : Z) :
  contains c s = false -> rfind_from s c i last = last.
Proof.
  revert i last; induction s as [|a s IH]; intros i last H; simpl in *; [reflexivity|].
  apply orb_false_iff in H as [Ha Hs]. rewrite Ha. now apply IH.
Qed.

Lemma rfind_from_present (s : string) (c : ascii) (i last : Z) :
  contains c s = true -> i <= rfind_from s c i last.
Proof.
  revert i last; induction s as [|a s IH]; intros i last H; simpl in *; [discriminate|].
  destruct (contains c s) eqn:Hs.
  - specialize (IH (i + 1) (if Ascii.eqb a c then i else last) eq_refl). lia.
  - rewrite orb_false_r in H. rewrite H.
    rewrite rfind_from_absent by assumption. lia.
Qed.

(** A character found at or after position [n] puts [rfind] there. *)
Lemma rfind_from_drop (s : string) (c : ascii) (n : nat) (i last : Z) :
  contains c (drop n s) = true -> i + Z.of_nat n <= rfind_from s c i last.
Proof.
  revert s i last; induction n as [|n IH]; intros s i last H.
  - simpl in H. pose proof (rfind_from_present s c i last H). lia.
  - destruct s as [|a s]; simpl in H; [discriminate|].
    simpl. specialize (IH s (i + 1) (if Ascii.eqb a c then i else last) H). lia.
Qed.

(** At the index [rfind] returns stands the character, for the last time. *)
Lemma rfind_from_found (s : string) (c : ascii) (i last : Z) :
  last < i -> i <= rfind_from s c i last ->
  exists post,
    drop (Z.to_nat (rfind_from s c i last - i)) s = String c post
    /\ contains c post = false.
Proof.
  revert i last; induction s as [|a s IH]; intros i last Hl Hr; simpl in *; [lia|].
  set (last' := if Ascii.eqb a c then i else last) in *.
  assert (Hl' : last' < i + 1) by (unfold last'; destruct (Ascii.eqb a c); lia).
  destruct (rfind_from_range s c (i + 1) last') as [E|E].
  - rewrite E in *. unfold last' in *.
    destruct (Ascii.eqb a c) eqn:Hac; [|lia].
    apply Ascii.eqb_eq in Hac; subst a.
    replace (i - i) with 0 by lia. simpl. exists s. split; [reflexivity|].
    destruct (contains c s) eqn:Hs; [|reflexivity].
    pose proof (rfind_from_present s c (i + 1) i Hs). lia.
  - destruct (IH (i + 1) last' Hl' (proj1 E)) as (post & Hd & Hp).
    exists post. split; [|assumption].
    replace (Z.to_nat (rfind_from s c (i + 1) last' - i))
      with (S (Z.to_nat (rfind_from s c (i + 1) last' - (i + 1)))) by lia.
    exact Hd.
Qed.


Lemma rfind_range (s : string) (c : ascii) :
  -1 <= rfind s c < Z.of_nat (String.length s).
Proof.
  unfold rfind. destruct (rfind_from_range s c 0 (-1)) as [E|E]; lia.
Qed.

(** The two halves of [splitext] make up the path; the extension is empty
    or one dot followed by characters that are neither a dot nor a
    separator. *)
Lemma splitext_parts (p : string) :
  p = fst (splitext p) ++ snd (splitext p)
  /\ (snd (splitext p) = ""
      \/ exists e, snd (splitext p) = String extsep e
                   /\ contains extsep e = false
                   /\ contains sep e = false)
  /\ contains sep (snd (splitext p)) = false.
Proof.
  unfold splitext.
  destruct ((rfind p sep <? rfind p extsep)
            && has_non_dot p (rfind p sep + 1)
                 (Z.to_nat (rfind p extsep - (rfind p sep + 1)))) eqn:C; simpl.
  - apply andb_true_iff in C as [Hlt _]. apply Z.ltb_lt in Hlt.
    pose proof (rfind_range p sep) as Rs.
    unfold slice_to, slice_from.
    assert (Hsep : contains sep (drop (Z.to_nat (rfind p extsep)) p) = false).
    { destruct (contains sep (drop (Z.to_nat (rfind p extsep)) p)) eqn:E; [|reflexivity].
      pose proof (rfind_from_drop p sep _ 0 (-1) E) as G. fold (rfind p sep) in G. lia. }
    split; [symmetry; apply take_drop|]. split; [|exact Hsep].
    right.
    destruct (rfind_from_found p extsep 0 (-1)) as (post & Hd & Hp);
      [lia | fold (rfind p extsep); lia |].
    fold (rfind p extsep) in Hd. rewrite Z.sub_0_r in Hd.
    exists post. rewrite Hd in *. repeat split; assumption.
  - split; [|split; [now left | reflexivity]].
    clear C. induction p as [|a p IH]; simpl; [reflexivity | now rewrite <- IH].
Qed.


Lemma append_assoc (a b c : string) : (a ++ b) ++ c = a ++ (b ++ c).
Proof. induction a as [|x a IH]; simpl; [reflexivity | now rewrite IH]. Qed.

Lemma append_nil_r (a : string) : a ++ "" = a.
Proof. induction a as [|x a IH]; simpl; [reflexivity | now rewrite IH]. Qed.

Lemma append_inv_head (a b c : string) : a ++ b = a ++ c -> b = c.
Proof. induction a as [|x a IH]; simpl; intros H; [exact H | injection H; auto]. Qed.

Lemma length_app (a b : string) :
  String.length (a ++ b) = (String.length a + String.length b)%nat.
Proof. induction a as [|x a IH]; simpl; [reflexivity | now rewrite IH]. Qed.

Lemma drop_app_length (a b : string) : drop (String.length a) (a ++ b) = b.
Proof. induction a as [|x a IH]; simpl; [reflexivity | exact IH]. Qed.

Lemma lower_app (a b : string) : lower (a ++ b) = lower a ++ lower b.
Proof. induction a as [|x a IH]; simpl; [reflexivity | now rewrite IH]. Qed.

Lemma lower_length (a : string) : String.length (lower a) = String.length a.
Proof. induction a as [|x a IH]; simpl; [reflexivity | now rewrite IH]. Qed.

Lemma endswith_app (a t : string) : endswith (a ++ t) t = true.
Proof.
  unfold endswith. rewrite length_app.
  replace (String.length a + String.length t - String.length t)%nat
    with (String.length a) by lia.
  rewrite drop_app_length, String.eqb_refl.
  apply andb_true_iff. split; [apply Nat.leb_le; lia | reflexivity].
Qed.

(** A name whose extension is [.webp] in any case ends in [.webp] once
    lowered. *)
Lemma extension_is_suffix (name : string) :
  lower (snd (splitext name)) = ".webp" -> endswith (lower name) ".webp" = true.
Proof.
  intros H. destruct (splitext_parts name) as (Hsplit & _).
  rewrite Hsplit, lower_app, H. apply endswith_app.
Qed.

(** [s.endswith(c)] for one character looks at the last character. *)
Lemma endswith_char (c a : ascii) (s : string) :
  endswith (String a s) (String c "")
  = match s with
    | EmptyString => Ascii.eqb a c
    | String _ _ => endswith s (String c "")
    end.
Proof.
  unfold endswith. destruct s as [|b s]; simpl.
  - destruct (Ascii.eqb a c); reflexivity.
  - rewrite Nat.sub_0_r. reflexivity.
Qed.

Lemma endswith_char_contains (c : ascii) (s : string) :
  endswith s (String c "") = true -> contains c s = true.
Proof.
  induction s as [|a s IH]; [discriminate|].
  rewrite endswith_char. destruct s as [|b s].
  - intros H. simpl. now rewrite H.
  - intros H. cbn [contains] in *. rewrite (IH H). apply orb_true_r.
Qed.

Lemma endswith_char_app (c : ascii) (a b : string) :
  b <> "" -> endswith (a ++ b) (String c "") = endswith b (String c "").
Proof.
  intros Hb. induction a as [|x a IH]; [reflexivity|].
  cbn [append]. rewrite endswith_char.
  destruct (a ++ b) eqn:E; [|exact IH].
  destruct a; simpl in E; [contradiction | discriminate].
Qed.

Lemma endswith_char_inv (c : ascii) (s : string) :
  endswith s (String c "") = true -> exists s', s = s' ++ String c "".
Proof.
  induction s as [|a s IH]; [discriminate|].
  rewrite endswith_char. destruct s as [|b s].
  - intros H. apply Ascii.eqb_eq in H; subst. now exists "".
  - intros H. destruct (IH H) as (s' & ->). now exists (String a s').
Qed.

Lemma join_prefix (a b : string) :
  contains sep b = false -> join a b = prefix_of a ++ b.
Proof.
  intros H. unfold join, prefix_of.
  assert (P : startswith b (String sep "") = false).
  { destruct b as [|x b]; [reflexivity|]. simpl in *.
    apply orb_false_iff in H as [Hx _]. now rewrite Hx. }
  rewrite P.
  destruct (String.eqb a "" || endswith a (String sep "")); [reflexivity|].
  now rewrite append_assoc.
Qed.

Lemma prefix_of_join (a d : string) :
  d <> "" -> contains sep d = false ->
  prefix_of (join a d) = prefix_of a ++ d ++ String sep "".
Proof.
  intros Hd Hsep. rewrite join_prefix by assumption.
  unfold prefix_of at 1.
  assert (E1 : String.eqb (prefix_of a ++ d) "" = false).
  { destruct (prefix_of a); simpl; [|reflexivity].
    destruct d; [contradiction | reflexivity]. }
  assert (E2 : endswith (prefix_of a ++ d) (String sep "") = false).
  { rewrite endswith_char_app by assumption.
    destruct (endswith d (String sep "")) eqn:E; [|reflexivity].
    apply endswith_char_contains in E. congruence. }
  rewrite E1, E2. simpl. now rewrite append_assoc.
Qed.

Lemma append_eq_append (a b c d : string) :
  a ++ b = c ++ d ->
  (exists m, a = c ++ m /\ d = m ++ b) \/ (exists m, c = a ++ m /\ b = m ++ d).
Proof.
  revert c; induction a as [|x a IH]; intros c H; simpl in H.
  - right. exists c. now split.
  - destruct c as [|y c]; simpl in H.
    + left. exists (String x a). now split.
    + injection H as -> H. destruct (IH c H) as [(m & -> & ->)|(m & -> & ->)].
      * left. now exists m.
      * right. now exists m.
Qed.

Lemma prefix_of_ends (root : string) :
  root <> "" -> endswith (prefix_of root) (String sep "") = true.
Proof.
  intros H. unfold prefix_of.
  destruct (String.eqb_spec root ""); [contradiction|]. simpl.
  destruct (endswith root (String sep "")) eqn:E; [exact E|].
  apply endswith_app.
Qed.

Lemma eqb_length (a b : string) :
  String.length a <> String.length b -> String.eqb a b = false.
Proof.
  intros H. destruct (String.eqb_spec a b); [subst; contradiction | reflexivity].
Qed.

Lemma plain_jpg_name (m : string) :
  contains sep m = false -> FileSystem.plain_name (m ++ ".jpg") = true.
Proof.
  intros H. unfold FileSystem.plain_name.
  assert (L : (4 <= String.length (m ++ ".jpg"))%nat)
    by (rewrite length_app; simpl; lia).
  rewrite !eqb_length by (simpl; lia).
  change "/"%char with sep. rewrite contains_app, H. reflexivity.
Qed.

(** The output derived for an entry of a directory lies in that
    directory, under a plain name. *)
Lemma default_output_in_directory (root file : string) :
  root <> "" -> contains sep file = false ->
  exists name,
    default_output_path (join root file) None = join root name
    /\ FileSystem.plain_name name = true.
Proof.
  intros Hroot Hfile.
  unfold default_output_path. rewrite (join_prefix root file) by assumption.
  destruct (splitext_parts (prefix_of root ++ file)) as (Hsplit & _ & Hext).
  assert (M : exists m, fst (splitext (prefix_of root ++ file)) = prefix_of root ++ m
                        /\ contains sep m = false).
  { apply append_eq_append in Hsplit as [(m & Hp & He)|(m & Hr & Hf)].
    - destruct m as [|x m].
      + exists "". rewrite append_nil_r in Hp. rewrite append_nil_r. now split.
      + exfalso. pose proof (prefix_of_ends root Hroot) as E.
        rewrite Hp, endswith_char_app in E by discriminate.
        apply endswith_char_contains in E.
        rewrite He, contains_app, E in Hext. discriminate.
    - exists m. split; [exact Hr|].
      rewrite Hf, contains_app in Hfile. now apply orb_false_iff in Hfile as [? _]. }
  destruct M as (m & -> & Hm).
  exists (m ++ ".jpg"). split; [|now apply plain_jpg_name].
  rewrite join_prefix, append_assoc; [reflexivity|].
  now rewrite contains_app, Hm.
Qed.

End PathFacts.

(** ** The derived output path *)

Section DerivedOutput.
Import PyStr OsPath PathFacts.



End DerivedOutput.

(** ** The single-image converter *)

Section Converter.
Context {codec : Codec}.
Import PyStr OsPath Imaging.


(** Once the input is read and decoded, the converter is the encoding of
    [bitmap_to_encode] at the quality it was given. *)
Lemma convert_after_open (input_path : string) (output_path : option string)
    (quality : Z) (w : World) (data : string) (img : image) :
  read_file (fs w) input_path = Ok data ->
  decode data = Ok img ->
  convert_webp_to_jpeg input_path output_path quality w
  = save_and_report input_path (default_output_path input_path output_path) quality
      (bitmap_to_encode img) w.
Proof.
  intros Hread Hdec.
  unfold convert_webp_to_jpeg, save_and_report, conversion_steps, bitmap_to_encode,
    try_except, bind, Image_open, lift.
  rewrite Hread, Hdec.
  destruct (mode_in (mode img) ["RGBA"; "LA"]).
  - destruct (Image_new "RGB" (size img) white) as [background|e]; [|reflexivity].
    destruct (if String.eqb (mode img) "RGBA"
              then getitem (split img) 3 else getitem (split img) 1) as [mask|e];
      [|reflexivity].
    destruct (paste background img mask) as [comp|e]; reflexivity.
  - destruct (convert img "RGB") as [rgb|e]; reflexivity.
Qed.

(** The [try] block either raises before anything is written, or is the
    saving of one bitmap followed by the confirmation. *)
Lemma conversion_steps_cases (input_path : string) (output_path : option string)
    (quality : Z) (w : World) :
  (exists e, conversion_steps input_path output_path quality w = Raise e w)
  \/ (exists bitmap,
        conversion_steps input_path output_path quality w
        = (Image_save bitmap (default_output_path input_path output_path) quality ;;;
           print (confirm_line input_path (default_output_path input_path output_path)) ;;;
           ret (Some (default_output_path input_path output_path))) w).
Proof.
  unfold conversion_steps, bind, Image_open, lift.
  destruct (read_file (fs w) input_path) as [data|e]; [|left; now exists e].
  destruct (decode data) as [img|e]; [|left; now exists e].
  destruct (mode_in (mode img) ["RGBA"; "LA"]).
  - destruct (Image_new "RGB" (size img) white) as [background|e]; [|left; now exists e].
    destruct (if String.eqb (mode img) "RGBA"
              then getitem (split img) 3 else getitem (split img) 1) as [mask|e];
      [|left; now exists e].
    destruct (paste background img mask) as [comp|e]; [|left; now exists e].
    right. now exists comp.
  - destruct (convert img "RGB") as [rgb|e]; [|left; now exists e].
    right. now exists rgb.
Qed.

(** The blend at the two ends of the mask. *)
Lemma DIV255_exact (s : Z) : 0 <= s <= 255 -> DIV255 (s * 255) = s.
Proof.
  intros H. unfold DIV255. rewrite !Z.shiftr_div_pow2 by lia.
  change (2 ^ 8) with 256.
  Z.div_mod_to_equations. lia.
Qed.

Lemma u8_byte (s : Z) : 0 <= s <= 255 -> u8 s = s.
Proof.
  intros H. unfold u8. change 255 with (Z.ones 8).
  rewrite Z.land_ones by lia. apply Z.mod_small. change (2 ^ 8) with 256. lia.
Qed.

Lemma blend_transparent (dst src : Z) :
  0 <= dst <= 255 -> u8 (BLEND 0 dst src) = dst.
Proof.
  intros H. unfold BLEND.
  replace (dst * (255 - 0) + src * 0) with (dst * 255) by lia.
  rewrite DIV255_exact by assumption. now apply u8_byte.
Qed.

Lemma blend_opaque (dst src : Z) :
  0 <= src <= 255 -> u8 (BLEND 255 dst src) = src.
Proof.
  intros H. unfold BLEND.
  replace (dst * (255 - 255) + src * 255) with (src * 255) by lia.
  rewrite DIV255_exact by assumption. now apply u8_byte.
Qed.

Lemma byte_value_range (v : Z) : byte_value v = true -> 0 <= v <= 255.
Proof. unfold byte_value. lia. Qed.

(** One pixel of the paste onto white: white under a zero mask, the
    colour of the source under a full mask. *)
Lemma blend_pixel_white (m : string) (px : list Z) (k : nat) :
  (m = "RGBA" /\ k = 3%nat) \/ (m = "LA" /\ k = 1%nat) ->
  List.length px = List.length (getbands m) ->
  forallb byte_value px = true ->
  (nth k px 0 = 0 -> blend_pixel m (white, px, [nth k px 0]) = white)
  /\ (nth k px 0 = 255 -> blend_pixel m (white, px, [nth k px 0]) = rgb_bytes m px).
Proof.
  intros Hm Hlen Hbytes.
  assert (Hpx : exists x y z, rgb_bytes m px = [x; y; z]
                              /\ 0 <= x <= 255 /\ 0 <= y <= 255 /\ 0 <= z <= 255).
  { destruct Hm as [[-> ->]|[-> ->]]; simpl in Hlen.
    - destruct px as [|r [|g [|b [|a [|]]]]]; try discriminate.
      simpl in Hbytes. repeat (apply andb_true_iff in Hbytes as [?%byte_value_range Hbytes]).
      exists r, g, b. now repeat split.
    - destruct px as [|l [|a [|]]]; try discriminate.
      simpl in Hbytes. repeat (apply andb_true_iff in Hbytes as [?%byte_value_range Hbytes]).
      exists l, l, l. now repeat split. }
  destruct Hpx as (x & y & z & E & Hx & Hy & Hz).
  unfold blend_pixel. rewrite E. cbn [nth white combine map fst snd].
  split; intros ->.
  - rewrite !blend_transparent by lia. reflexivity.
  - rewrite !blend_opaque by assumption. reflexivity.
Qed.

Lemma paste_white_pixels (m : string) (k : nat) (l : list (list Z)) :
  (m = "RGBA" /\ k = 3%nat) \/ (m = "LA" /\ k = 1%nat) ->
  forallb (fun px => Nat.eqb (List.length px) (List.length (getbands m))
                     && forallb byte_value px) l = true ->
  Forall2 (fun px out => (nth k px 0 = 0 -> out = white)
                         /\ (nth k px 0 = 255 -> out = rgb_bytes m px))
    l
    (map (blend_pixel m)
       (combine (combine (repeat white (List.length l)) l)
                (map (fun px => [nth k px 0]) l))).
Proof.
  intros Hm. induction l as [|px l IH]; intros Hwf; simpl; [constructor|].
  simpl in Hwf. apply andb_true_iff in Hwf as [Hpx Hl].
  apply andb_true_iff in Hpx as [Hlen Hbytes]. apply Nat.eqb_eq in Hlen.
  constructor; [|now apply IH].
  now apply blend_pixel_white.
Qed.

(** C1: an input whose mode is "RGBA" or "LA" is composited onto an
    opaque white canvas of its own size with its alpha band as the mask,
    and the composite is what is encoded: it is an "RGB" bitmap of the
    same size, white wherever the source alpha is 0 and of the source's
    colour wherever the source alpha is 255.  An input of any other mode
    is converted to "RGB" and that conversion is encoded. *)
Theorem alpha_is_flattened_onto_white (input_path : string)
    (output_path : option string) (quality : Z) (w : World)
    (data : string) (img : image) :
  read_file (fs w) input_path = Ok data ->
  decode data = Ok img ->
  Imaging.well_formed img = true ->
  if mode_in (mode img) ["RGBA"; "LA"] then
    exists canvas mask comp,
      Image_new "RGB" (size img) white = Ok canvas
      /\ size canvas = size img
      /\ pixels canvas = repeat white (List.length (pixels img))
      /\ mask = band img (if String.eqb (mode img) "RGBA" then 3 else 1)
      /\ paste canvas img mask = Ok comp
      /\ mode comp = "RGB"
      /\ size comp = size img
      /\ Forall2 (fun px out =>
                    (alpha_of (mode img) px = 0 -> out = white)
                    /\ (alpha_of (mode img) px = 255 -> out = rgb_bytes (mode img) px))
           (pixels img) (pixels comp)
      /\ convert_webp_to_jpeg input_path output_path quality w
         = save_and_report input_path (default_output_path input_path output_path)
             quality (Ok comp) w
  else
    convert_webp_to_jpeg input_path output_path quality w
    = save_and_report input_path (default_output_path input_path output_path)
        quality (convert img "RGB") w.
Proof.
  intros Hread Hdec Hwf.
  rewrite (convert_after_open _ _ _ _ _ _ Hread Hdec).
  unfold bitmap_to_encode.
  destruct (mode_in (mode img) ["RGBA"; "LA"]) eqn:Hmode; [|reflexivity].
  unfold Imaging.well_formed in Hwf.
  repeat (apply andb_true_iff in Hwf as [Hwf ?]).
  destruct img as [m [wd ht] px]; cbn [mode size pixels fst snd] in *.
  apply Nat.eqb_eq in H0.
  assert (Hnew : Image_new "RGB" (wd, ht) white
                 = Ok (mkImage "RGB" (wd, ht) (repeat white (List.length px)))).
  { unfold Image_new.
    replace ((wd <? 0) || (ht <? 0)) with false by lia. now rewrite H0. }
  assert (Hm : (m = "RGBA" /\ (if String.eqb m "RGBA" then 3%nat else 1%nat) = 3%nat)
               \/ (m = "LA" /\ (if String.eqb m "RGBA" then 3%nat else 1%nat) = 1%nat)).
  { unfold mode_in in Hmode. simpl in Hmode.
    destruct (String.eqb m "RGBA") eqn:E1.
    - left. apply String.eqb_eq in E1. now split.
    - destruct (String.eqb m "LA") eqn:E2; [|discriminate].
      right. apply String.eqb_eq in E2. now split. }
  set (k := if String.eqb m "RGBA" then 3%nat else 1%nat) in *.
  set (img := mkImage m (wd, ht) px).
  assert (Hmask : (if String.eqb m "RGBA" then getitem (split img) 3
                   else getitem (split img) 1) = Ok (band img k)).
  { destruct Hm as [[-> Hk]|[-> Hk]]; rewrite <- Hk; reflexivity. }
  rewrite Hnew, Hmask.
  eexists _, (band img k), _.
  split; [reflexivity|]. split; [reflexivity|]. split; [reflexivity|].
  split; [reflexivity|].
  assert (Hpaste : paste (mkImage "RGB" (wd, ht) (repeat white (List.length px)))
                     img (band img k)
                   = Ok (mkImage "RGB" (wd, ht)
                           (map (blend_pixel m)
                              (combine (combine (repeat white (List.length px)) px)
                                       (map (fun p => [nth k p 0]) px))))).
  { unfold paste; simpl. rewrite !Z.eqb_refl. reflexivity. }
  rewrite Hpaste.
  split; [reflexivity|]. split; [reflexivity|]. split; [reflexivity|].
  split; [|reflexivity].
  simpl.
  assert (Halpha : forall p, alpha_of m p = nth k p 0).
  { intros p. unfold alpha_of, k. destruct Hm as [[-> _]|[-> _]]; reflexivity. }
  eapply Forall2_impl; [|apply (paste_white_pixels m k px Hm); assumption].
  intros a b [H0' H255]. rewrite Halpha. now split.
Qed.

(** C8: the quality is not validated by the converter.  For every
    quality, in or out of 1..100, the encoder is run on the bitmap with
    exactly that quality and its verdict decides the call: when the
    encoder raises, the converter prints the error line for the input
    with the encoder's text and returns [None]; when it returns data, the
    data is written and the output path is returned. *)
Theorem quality_is_left_to_the_encoder (input_path : string)
    (output_path : option string) (quality : Z) (w : World)
    (data : string) (img bitmap : image) (handle : list string * string) :
  read_file (fs w) input_path = Ok data ->
  decode data = Ok img ->
  bitmap_to_encode img = Ok bitmap ->
  open_wb (fs w) (default_output_path input_path output_path) = Ok handle ->
  match encode_jpeg bitmap quality with
  | Err e =>
      exists fs',
        convert_webp_to_jpeg input_path output_path quality w
        = Return None
            (mkWorld fs' (stdout w ++ ["Error converting " ++ input_path ++ ": " ++ str e]))
  | Ok encoded =>
      convert_webp_to_jpeg input_path output_path quality w
      = Return (Some (default_output_path input_path output_path))
          (mkWorld (store (fs w) handle encoded)
             (stdout w ++ [confirm_line input_path
                             (default_output_path input_path output_path)]))
  end.
Proof.
  intros Hread Hdec Hbitmap Hopen.
  rewrite (convert_after_open _ _ _ _ _ _ Hread Hdec), Hbitmap.
  unfold save_and_report, try_except, bind, lift, Image_save.
  rewrite Hopen.
  destruct (encode_jpeg bitmap quality) as [encoded|e]; [reflexivity|].
  destruct (negb (exists_ (fs w) (default_output_path input_path output_path)));
    eexists; reflexivity.
Qed.

End Converter.

Section ConverterSamples.
#[local] Existing Instance Raw.codec.

(** The first pixel of [a.webp] is transparent and comes out white, the
    second is opaque and keeps its colour. *)
Lemma alpha_is_flattened_onto_white_witness :
  let w := Raw.world_of Raw.pics in
  let img := Imaging.mkImage "RGBA" (2, 1) [[200; 10; 10; 0]; [10; 20; 230; 255]] in
  read_file (fs w) "pics/a.webp" = Ok Raw.rgba_file
  /\ decode Raw.rgba_file = Ok img
  /\ Imaging.well_formed img = true
  /\ exists comp,
       Imaging.pixels comp = [[255; 255; 255]; [10; 20; 230]]
       /\ convert_webp_to_jpeg "pics/a.webp" None 90 w
          = save_and_report "pics/a.webp" "pics/a.jpg" 90 (Ok comp) w.
Proof.
  intros w img.
  split; [reflexivity|]. split; [reflexivity|]. split; [reflexivity|].
  destruct (alpha_is_flattened_onto_white (codec := Raw.codec)
              "pics/a.webp" None 90 w Raw.rgba_file img
              eq_refl eq_refl eq_refl)
    as (canvas & mask & comp & Hnew & _ & _ & Hmask & Hpaste & _ & _ & _ & Hconv).
  exists comp. split; [|exact Hconv].
  subst mask. injection Hnew as <-. injection Hpaste as <-. reflexivity.
Defined.

(** On [a.webp], quality 900 is rejected by the stand-in encoder and the
    converter returns [None]. *)
Lemma quality_is_left_to_the_encoder_witness :
  let w := Raw.world_of Raw.pics in
  exists fs',
    convert_webp_to_jpeg "pics/a.webp" None 900 w
    = Return None
        (mkWorld fs' ["Error converting pics/a.webp: Invalid quality setting"]).
Proof.
  intros w.
  exact (quality_is_left_to_the_encoder (codec := Raw.codec)
           "pics/a.webp" None 900 w Raw.rgba_file
           (Imaging.mkImage "RGBA" (2, 1) [[200; 10; 10; 0]; [10; 20; 230; 255]])
           (Imaging.mkImage "RGB" (2, 1) [[255; 255; 255]; [10; 20; 230]])
           (["pics"], "a.jpg")
           eq_refl eq_refl eq_refl eq_refl).
Defined.

End ConverterSamples.

(** ** The directory walker *)

Section Walker.
Context {codec : Codec}.
Import PyStr OsPath.

Lemma bind_ext {A B : Type} (m m' : M A) (k k' : A -> M B) (w : World) :
  (forall w0, m w0 = m' w0) ->
  (forall a w0, k a w0 = k' a w0) ->
  bind m k w = bind m' k' w.
Proof.
  intros Hm Hk. unfold bind. rewrite Hm. destruct (m' w); [apply Hk | reflexivity].
Qed.

Lemma for_each_app {A : Type} (l1 l2 : list A) (body : A -> M unit) (w : World) :
  for_each (l1 ++ l2)%list body w = (for_each l1 body ;;; for_each l2 body) w.
Proof.
  revert w; induction l1 as [|x l1 IH]; intros w; simpl; [reflexivity|].
  unfold bind in *. destruct (body x w) as [u w'|e w']; [apply IH | reflexivity].
Qed.

Lemma for_each_ext {A : Type} (l : list A) (f g : A -> M unit) (w : World) :
  (forall x w', f x w' = g x w') -> for_each l f w = for_each l g w.
Proof.
  intros H. revert w; induction l as [|x l IH]; intros w; simpl; [reflexivity|].
  unfold bind. rewrite H. destruct (g x w); [apply IH | reflexivity].
Qed.

Lemma for_each_filter {A : Type} (keep : A -> bool) (l : list A) (f : A -> M unit)
    (w : World) :
  for_each l (fun x => if keep x then f x else ret tt) w = for_each (filter keep l) f w.
Proof.
  revert w; induction l as [|x l IH]; intros w; simpl; [reflexivity|].
  destruct (keep x); simpl; unfold bind.
  - destruct (f x w); [apply IH | reflexivity].
  - apply IH.
Qed.

Lemma for_each_map {A B : Type} (g : A -> B) (l : list A) (f : B -> M unit) (w : World) :
  for_each (map g l) f w = for_each l (fun x => f (g x)) w.
Proof.
  revert w; induction l as [|x l IH]; intros w; simpl; [reflexivity|].
  unfold bind. destruct (f (g x) w); [apply IH | reflexivity].
Qed.

Lemma filter_pairs (keep : string -> bool) (root : string) (files : list string) :
  filter (fun e => keep (snd e)) (map (pair root) files)
  = map (pair root) (filter keep files).
Proof.
  induction files as [|f files IH]; simpl; [reflexivity|].
  destruct (keep f); simpl; now rewrite IH.
Qed.

(** The loop over the entries of one directory is the loop of conversion
    attempts over its matching entries. *)
Lemma directory_loop (quality : Z) (root : string) (files : list string) (w : World) :
  for_each files
    (fun file =>
       if is_webp file
       then convert_webp_to_jpeg (join root file) None quality ;;; ret tt
       else ret tt) w
  = for_each
      (map (fun e => join (fst e) (snd e))
         (filter (fun e => is_webp (snd e)) (map (pair root) files)))
      (attempt quality) w.
Proof.
  rewrite filter_pairs, map_map. cbn [fst snd].
  rewrite for_each_map.
  apply (for_each_filter is_webp files (fun file => attempt quality (join root file))).
Qed.

(** Both loops of the walker are one loop over the conversion targets. *)
Lemma walk_loop_as_targets (quality : Z) (triples : list (string * list string * list string))
    (w : World) :
  for_each triples
    (fun '(root, _, files) =>
       for_each files
         (fun file =>
            if is_webp file
            then convert_webp_to_jpeg (join root file) None quality ;;; ret tt
            else ret tt)) w
  = for_each
      (map (fun e => join (fst e) (snd e))
         (filter (fun e => is_webp (snd e))
            (flat_map (fun '(root, _, files) => map (pair root) files) triples)))
      (attempt quality) w.
Proof.
  revert w; induction triples as [|[[root dirs] files] triples IH]; intros w;
    [reflexivity|].
  cbn [for_each flat_map]. rewrite filter_app, map_app, for_each_app.
  apply bind_ext; intros; [apply directory_loop | apply IH].
Qed.

(** The walker, run on a directory, is the loop of conversion attempts
    over its targets. *)
Lemma batch_as_targets (directory : string) (quality : Z) (recursive : bool) (w : World) :
  isdir (fs w) directory = true ->
  batch_convert_webp_to_jpeg directory quality recursive w
  = for_each (conversion_targets (fs w) directory recursive) (attempt quality) w.
Proof.
  intros Hdir. unfold batch_convert_webp_to_jpeg, conversion_targets, considered.
  destruct recursive.
  - apply walk_loop_as_targets.
  - unfold isdir in Hdir. unfold bind, lift, listdir.
    destruct (lookup (fs w) directory) as [[data|es]|]; try discriminate.
    apply directory_loop.
Qed.

(** Saving prints nothing, whether it returns or raises. *)
Lemma Image_save_stdout (img : Imaging.image) (path : string) (quality : Z) (w : World) :
  match Image_save img path quality w with
  | Return _ w' => stdout w' = stdout w
  | Raise _ w' => stdout w' = stdout w
  end.
Proof.
  unfold Image_save.
  destruct (open_wb (fs w) path) as [handle|e]; [|reflexivity].
  destruct (encode_jpeg img quality) as [data|e]; [reflexivity|].
  destruct (negb (exists_ (fs w) path)); reflexivity.
Qed.

(** The [try] block prints its confirmation when it returns and nothing
    when it raises. *)
Lemma conversion_steps_stdout (input_path : string) (output_path : option string)
    (quality : Z) (w : World) :
  match conversion_steps input_path output_path quality w with
  | Return _ w' =>
      stdout w' = (stdout w
                   ++ [confirm_line input_path (default_output_path input_path output_path)])%list
  | Raise _ w' => stdout w' = stdout w
  end.
Proof.
  destruct (conversion_steps_cases input_path output_path quality w)
    as [(e & ->)|(bitmap & ->)]; [reflexivity|].
  unfold bind.
  pose proof (Image_save_stdout bitmap (default_output_path input_path output_path)
                quality w) as H.
  destruct (Image_save bitmap (default_output_path input_path output_path) quality w);
    simpl; [now rewrite H | exact H].
Qed.

(** Every call of the converter returns and prints exactly one line: the
    confirmation with the output path, or an error report for its
    input. *)
Lemma convert_prints_one_line (input_path : string) (output_path : option string)
    (quality : Z) (w : World) :
  exists r w' line,
    convert_webp_to_jpeg input_path output_path quality w = Return r w'
    /\ stdout w' = (stdout w ++ [line])%list
    /\ (line = confirm_line input_path (default_output_path input_path output_path)
        \/ exists e, line = error_line input_path e).
Proof.
  pose proof (conversion_steps_stdout input_path output_path quality w) as H.
  unfold convert_webp_to_jpeg, try_except.
  destruct (conversion_steps input_path output_path quality w) as [r w'|e w'].
  - exists r, w', (confirm_line input_path (default_output_path input_path output_path)).
    split; [reflexivity|]. split; [exact H|]. now left.
  - eexists None, _, (error_line input_path e).
    split; [reflexivity|]. split; [simpl; now rewrite H|]. right. now eexists.
Qed.

(** A loop of attempts runs to its end, one line per path, in order. *)
Lemma attempts_log (quality : Z) (paths : list string) (w : World) :
  exists w' lines,
    for_each paths (attempt quality) w = Return tt w'
    /\ stdout w' = (stdout w ++ lines)%list
    /\ Forall2 reports paths lines.
Proof.
  revert w; induction paths as [|p paths IH]; intros w.
  - exists w, []. split; [reflexivity|]. split; [now rewrite app_nil_r | constructor].
  - destruct (convert_prints_one_line p None quality w) as (r & w1 & line & E & Hout & Hrep).
    destruct (IH w1) as (w' & lines & E' & Hout' & Hreps).
    exists w', (line :: lines).
    split; [|split].
    + cbn [for_each]. unfold bind, attempt, bind. rewrite E. exact E'.
    + rewrite Hout', Hout, <- app_assoc. reflexivity.
    + now constructor.
Qed.

(** The walker ends with one report per target. *)
Lemma failures_log (directory : string) (quality : Z) (recursive : bool) (w : World) :
  isdir (fs w) directory = true ->
  exists w' lines,
    batch_convert_webp_to_jpeg directory quality recursive w = Return tt w'
    /\ stdout w' = (stdout w ++ lines)%list
    /\ Forall2 reports (conversion_targets (fs w) directory recursive) lines.
Proof.
  intros Hdir. rewrite (batch_as_targets _ _ _ _ Hdir). apply attempts_log.
Qed.


End Walker.

(** ** File system facts *)

Module FsFacts.
Import PyStr OsPath PathFacts FileSystem.

Lemma split_sep_nonempty (p : string) : split_sep p <> [].
Proof.
  induction p as [|a p IH]; simpl; [discriminate|].
  destruct (Ascii.eqb a "/"); [discriminate|].
  destruct (split_sep p); discriminate.
Qed.

Lemma split_sep_app_sep (a b : string) :
  split_sep (a ++ String "/" b) = (split_sep a ++ split_sep b)%list.
Proof.
  induction a as [|x a IH]; simpl; [reflexivity|].
  rewrite IH. destruct (Ascii.eqb x "/"); [reflexivity|].
  pose proof (split_sep_nonempty a).
  destruct (split_sep a); [contradiction | reflexivity].
Qed.

Lemma split_sep_plain (s : string) :
  contains "/" s = false -> split_sep s = [s].
Proof.
  induction s as [|x s IH]; simpl; [reflexivity|].
  intros H. apply orb_false_iff in H as [Hx Hs].
  rewrite Hx, (IH Hs). reflexivity.
Qed.

Lemma walk_components_app (fs : node) (cur : list string) (xs ys : list string) :
  walk_components fs cur (xs ++ ys)
  = match walk_components fs cur xs with
    | Some c => walk_components fs c ys
    | None => None
    end.
Proof.
  revert cur; induction xs as [|x xs IH]; intros cur; simpl; [reflexivity|].
  destruct (get fs cur) as [[d|es]|]; try reflexivity. apply IH.
Qed.

Lemma get_app (n : node) (cs cs' : list string) :
  get n (cs ++ cs')
  = match get n cs with
    | Some m => get m cs'
    | None => None
    end.
Proof.
  revert n; induction cs as [|c cs IH]; intros n; simpl; [reflexivity|].
  destruct n as [d|es]; [reflexivity|].
  destruct (find_entry c es); [apply IH | reflexivity].
Qed.

Lemma plain_name_parts (name : string) :
  plain_name name = true ->
  name <> "" /\ String.eqb name "" = false /\ String.eqb name "." = false
  /\ String.eqb name ".." = false /\ contains "/" name = false.
Proof.
  unfold plain_name. intros H.
  repeat (apply andb_true_iff in H as [H ?]).
  apply negb_true_iff in H, H0, H1, H2.
  repeat split; try assumption.
  intros ->. discriminate.
Qed.

Lemma step_plain (cur : list string) (name : string) :
  plain_name name = true -> step cur name = (cur ++ [name])%list.
Proof.
  intros H. apply plain_name_parts in H as (_ & H0 & H1 & H2 & _).
  unfold step. now rewrite H0, H1, H2.
Qed.


Lemma find_entry_set_other (c name : string) (new : node) (es : list (string * node)) :
  c <> name -> find_entry c (set_entry name new es) = find_entry c es.
Proof.
  intros N. induction es as [|[k child] es IH]; simpl.
  - destruct (String.eqb_spec name c); [congruence | reflexivity].
  - destruct (String.eqb_spec k name) as [->|Hk]; simpl.
    + destruct (String.eqb_spec name c); [congruence | reflexivity].
    + destruct (String.eqb k c); [reflexivity | exact IH].
Qed.

Lemma find_entry_update_other (c k : string) (f : node -> node) (es : list (string * node)) :
  c <> k -> find_entry c (update_entry k f es) = find_entry c es.
Proof.
  intros N. induction es as [|[k' child] es IH]; simpl; [reflexivity|].
  destruct (String.eqb_spec k' k) as [->|Hk]; simpl.
  - destruct (String.eqb_spec k c); [congruence | reflexivity].
  - destruct (String.eqb k' c); [reflexivity | exact IH].
Qed.

Lemma find_entry_update_same (k : string) (f : node -> node) (es : list (string * node))
    (child : node) :
  find_entry k es = Some child -> find_entry k (update_entry k f es) = Some (f child).
Proof.
  induction es as [|[k' ch] es IH]; simpl; [discriminate|].
  destruct (String.eqb_spec k' k) as [->|Hk]; simpl.
  - rewrite String.eqb_refl. intros [= ->]. reflexivity.
  - destruct (String.eqb_spec k' k); [contradiction | exact IH].
Qed.

Lemma get_dir_inv (n : node) (cs : list string) (es : list (string * node)) :
  get n cs = Some (Dir es) -> exists l, n = Dir l.
Proof.
  destruct cs as [|c cs]; simpl.
  - intros [= ->]. now exists es.
  - destruct n as [d|l]; [discriminate | now exists l].
Qed.

(** Writing a file where no directory stands keeps every directory. *)
Lemma put_keeps_dirs (cs : list string) :
  forall (n : node) (parent : list string) (name data : string)
         (es : list (string * node)),
    get n cs = Some (Dir es) ->
    (forall x, get n (parent ++ [name]) <> Some (Dir x)) ->
    exists es', get (put n parent name (File data)) cs = Some (Dir es').
Proof.
  induction cs as [|c cs IH]; intros n parent name data es Hget Hfree.
  - simpl in Hget. injection Hget as ->.
    destruct parent; simpl; eexists; reflexivity.
  - destruct n as [d|l]; [discriminate|]. simpl in Hget.
    destruct (find_entry c l) as [child|] eqn:Hc; [|discriminate].
    destruct parent as [|p0 parent]; simpl.
    + destruct (String.eqb_spec c name) as [->|N].
      * exfalso. destruct (get_dir_inv _ _ _ Hget) as (x & ->).
        apply (Hfree x). simpl. now rewrite Hc.
      * rewrite find_entry_set_other by assumption. rewrite Hc. now exists es.
    + destruct (String.eqb_spec c p0) as [->|N].
      * rewrite (find_entry_update_same _ _ _ _ Hc).
        apply (IH child parent name data es Hget).
        intros x Hx. apply (Hfree x). simpl. now rewrite Hc.
      * rewrite find_entry_update_other by assumption. rewrite Hc. now exists es.
Qed.

Lemma open_wb_free (fs : node) (p : string) (parent : list string) (name : string) :
  open_wb fs p = Ok (parent, name) ->
  forall x, get fs (parent ++ [name]) <> Some (Dir x).
Proof.
  unfold open_wb. intros H.
  destruct (String.eqb p ""); [discriminate|].
  destruct (walk_components fs [] (removelast (split_sep p))) as [par|]; [|discriminate].
  destruct (get fs par) as [[d|l]|]; try discriminate.
  destruct (String.eqb (last (split_sep p) "") "" || String.eqb (last (split_sep p) "") "."
            || String.eqb (last (split_sep p) "") ".."); [discriminate|].
  destruct (get fs (par ++ [last (split_sep p) ""])) as [[d|l']|] eqn:G;
    try discriminate; injection H as <- <-; rewrite G; discriminate.
Qed.

Lemma store_keeps_dirs (fs : node) (p : string) (handle : list string * string)
    (data : string) :
  open_wb fs p = Ok handle -> dirs_kept fs (store fs handle data).
Proof.
  destruct handle as [parent name]. intros H cs es Hget.
  apply (put_keeps_dirs cs fs parent name data es Hget).
  now apply (open_wb_free fs p).
Qed.

Lemma dirs_kept_refl (fs : node) : dirs_kept fs fs.
Proof. intros cs es H. now exists es. Qed.

Lemma dirs_kept_trans (a b c : node) : dirs_kept a b -> dirs_kept b c -> dirs_kept a c.
Proof.
  intros Hab Hbc cs es H. destruct (Hab cs es H) as (es' & H'). exact (Hbc cs es' H').
Qed.

Lemma walk_components_kept (fs fs' : node) (comps cur cs : list string) :
  dirs_kept fs fs' ->
  walk_components fs cur comps = Some cs ->
  walk_components fs' cur comps = Some cs.
Proof.
  intros K. revert cur; induction comps as [|c comps IH]; intros cur; simpl; [auto|].
  destruct (get fs cur) as [[d|l]|] eqn:G; try discriminate.
  destruct (K cur l G) as (l' & ->). apply IH.
Qed.


Lemma join_components (fs : node) (dir name : string) (cs : list string) :
  String.eqb dir "" = false ->
  walk_components fs [] (split_sep dir) = Some cs ->
  plain_name name = true ->
  exists base,
    join dir name = base ++ String "/" name
    /\ walk_components fs [] (split_sep base) = Some cs.
Proof.
  intros Hempty W Hplain.
  pose proof (plain_name_parts name Hplain) as (Hne & _ & _ & _ & Hsep).
  rewrite join_prefix by assumption. unfold prefix_of. rewrite Hempty. simpl.
  destruct (endswith dir (String sep "")) eqn:E.
  - apply endswith_char_inv in E as (base & ->). exists base.
    split; [now rewrite append_assoc|].
    unfold sep in W. rewrite split_sep_app_sep, walk_components_app in W. simpl in W.
    destruct (walk_components fs [] (split_sep base)) as [c|]; [|discriminate].
    destruct (get fs c) as [[d|l]|]; try discriminate.
    unfold step in W. simpl in W. exact W.
  - exists dir. split; [now rewrite append_assoc | exact W].
Qed.

Lemma resolve_inv (fs : node) (p : string) (cs : list string) :
  resolve fs p = Some cs ->
  String.eqb p "" = false /\ walk_components fs [] (split_sep p) = Some cs.
Proof.
  unfold resolve. destruct (String.eqb p ""); [discriminate | now split].
Qed.

Lemma resolve_join (fs : node) (dir name : string) (cs : list string)
    (es : list (string * node)) :
  resolve fs dir = Some cs -> get fs cs = Some (Dir es) -> plain_name name = true ->
  resolve fs (join dir name) = Some (cs ++ [name])%list.
Proof.
  intros R G Hplain. apply resolve_inv in R as [Hempty W].
  pose proof (plain_name_parts name Hplain) as (_ & _ & _ & _ & Hsep).
  destruct (join_components fs dir name cs Hempty W Hplain) as (base & -> & Wb).
  unfold resolve.
  assert (N : String.eqb (base ++ String "/" name) "" = false)
    by (destruct base; reflexivity).
  rewrite N, split_sep_app_sep, walk_components_app, Wb, (split_sep_plain name Hsep).
  simpl. now rewrite G, (step_plain cs name Hplain).
Qed.

Lemma open_wb_join (fs : node) (dir name : string) (cs : list string)
    (es : list (string * node)) (handle : list string * string) :
  resolve fs dir = Some cs -> get fs cs = Some (Dir es) -> plain_name name = true ->
  open_wb fs (join dir name) = Ok handle ->
  handle = (cs, name).
Proof.
  intros R G Hplain. apply resolve_inv in R as [Hempty W].
  pose proof (plain_name_parts name Hplain) as (_ & _ & _ & _ & Hsep).
  destruct (join_components fs dir name cs Hempty W Hplain) as (base & -> & Wb).
  unfold open_wb.
  assert (N : String.eqb (base ++ String "/" name) "" = false)
    by (destruct base; reflexivity).
  rewrite N, split_sep_app_sep, (split_sep_plain name Hsep), removelast_last, last_last.
  rewrite Wb, G.
  destruct (String.eqb name "" || String.eqb name "." || String.eqb name "..");
    [discriminate|].
  destruct (get fs (cs ++ [name])) as [[d|l]|]; intros [= <-]; reflexivity.
Qed.

Lemma find_entry_update (k : string) (f : node -> node) (es : list (string * node)) :
  find_entry k (update_entry k f es) = option_map f (find_entry k es).
Proof.
  induction es as [|[k' ch] es IH]; simpl; [reflexivity|].
  destruct (String.eqb_spec k' k) as [->|N]; simpl.
  - now rewrite String.eqb_refl.
  - destruct (String.eqb_spec k' k); [contradiction | exact IH].
Qed.

(** A write leaves every path that parts ways with it as it was. *)
Lemma put_frame (common : list string) :
  forall (n : node) (parent : list string) (name : string) (new : node)
         (x y : string) (a' b' : list string),
    (parent ++ [name] = common ++ x :: a')%list ->
    x <> y ->
    get (put n parent name new) (common ++ y :: b') = get n (common ++ y :: b').
Proof.
  induction common as [|z common IH]; intros n parent name new x y a' b' E N;
    destruct n as [d|es]; try reflexivity.
  - destruct parent as [|p0 parent]; simpl in E; injection E as -> E; simpl.
    + rewrite find_entry_set_other by congruence. reflexivity.
    + rewrite find_entry_update_other by congruence. reflexivity.
  - destruct parent as [|p0 parent]; simpl in E.
    + injection E as _ E. destruct common; discriminate.
    + injection E as -> E. simpl. rewrite find_entry_update.
      destruct (find_entry z es) as [child|]; simpl; [|reflexivity].
      exact (IH child parent name new x y a' b' E N).
Qed.

Lemma put_frame_diverge (n : node) (parent : list string) (name : string) (new : node)
    (P : list string) :
  diverge (parent ++ [name]) P ->
  get (put n parent name new) P = get n P.
Proof.
  intros (common & x & y & a' & b' & E & -> & N).
  exact (put_frame common n parent name new x y a' b' E N).
Qed.

Lemma diverge_extend (a b more : list string) :
  diverge a b -> diverge (a ++ more) b.
Proof.
  intros (common & x & y & a' & b' & -> & -> & N).
  exists common, x, y, (a' ++ more)%list, b'.
  split; [now rewrite <- app_assoc|]. now split.
Qed.

Lemma diverge_children (cs : list string) (x y : string) (rest : list string) :
  x <> y -> diverge (cs ++ [x]) (cs ++ y :: rest).
Proof. intros N. exists cs, x, y, [], rest. now repeat split. Qed.

Lemma untouched_refl cs fs : untouched cs fs fs.
Proof. now intros P _. Qed.

Lemma untouched_trans cs a b c :
  untouched cs a b -> untouched cs b c -> untouched cs a c.
Proof.
  intros Hab Hbc P HP. rewrite <- (Hab P HP). apply Hbc.
  destruct HP as [D|(d & rest & x & -> & G)]; [now left|].
  right. exists d, rest, x. split; [reflexivity|].
  rewrite <- G. apply Hab. right. now exists d, [], x.
Qed.

End FsFacts.

(** ** What the walker converts *)

Section WalkerTargets.
Context {codec : Codec}.
Import PyStr OsPath PathFacts FileSystem FsFacts.

Lemma in_conversion_targets (tree : node) (directory : string) (recursive : bool)
    (path : string) :
  In path (conversion_targets tree directory recursive)
  <-> exists root name,
        In (root, name) (considered tree directory recursive)
        /\ is_webp name = true
        /\ path = join root name.
Proof.
  unfold conversion_targets. rewrite in_map_iff. split.
  - intros ([root name] & <- & Hin). apply filter_In in Hin as [Hin Hweb].
    exists root, name. now repeat split.
  - intros (root & name & Hin & Hweb & ->). exists (root, name).
    split; [reflexivity|]. apply filter_In. now split.
Qed.

(** C4, as the code has it: run on a directory, the walker is the loop of
    conversion attempts over its targets, and a path is a target exactly
    when it is [join root name] for an entry the walker considers whose
    lowered name ends in [.webp].  Every considered entry whose extension
    is [.webp] in any case is among them. *)
Theorem walker_converts_names_ending_in_webp (directory : string) (quality : Z)
    (recursive : bool) (w : World) :
  isdir (fs w) directory = true ->
  batch_convert_webp_to_jpeg directory quality recursive w
  = for_each (conversion_targets (fs w) directory recursive)
      (fun path => convert_webp_to_jpeg path None quality ;;; ret tt) w
  /\ (forall path,
        In path (conversion_targets (fs w) directory recursive)
        <-> exists root name,
              In (root, name) (considered (fs w) directory recursive)
              /\ endswith (lower name) ".webp" = true
              /\ path = join root name)
  /\ (forall root name,
        In (root, name) (considered (fs w) directory recursive) ->
        extension name = ".webp" ->
        In (join root name) (conversion_targets (fs w) directory recursive)).
Proof.
  intros Hdir. split; [exact (batch_as_targets _ _ _ _ Hdir)|]. split.
  - intros path. apply in_conversion_targets.
  - intros root name Hin Hext. apply in_conversion_targets.
    exists root, name. split; [assumption|]. split; [|reflexivity].
    now apply extension_is_suffix.
Qed.

(** A file below a directory is in a triple of its walk. *)
Lemma walk_node_finds (root : string) (n : node) (dir name : string) :
  file_in root n dir name ->
  exists dirs files, In (dir, dirs, files) (walk_node root n) /\ In name files.
Proof.
  induction 1 as [root es name data Hin | root es d child dir name Hin _ IH].
  - exists (dirnames es), (filenames es). split; [now left|].
    unfold filenames. apply in_map_iff. exists (name, File data).
    split; [reflexivity|]. apply filter_In. now split.
  - destruct IH as (dirs & files & Hw & Hf). exists dirs, files.
    split; [|assumption]. simpl. right. apply in_flat_map.
    exists (d, child). now split.
Qed.

Lemma well_formed_entry (es : list (string * node)) (k : string) (child : node) :
  well_formed (Dir es) = true -> In (k, child) es ->
  plain_name k = true /\ well_formed child = true.
Proof.
  simpl. intros H Hin.
  apply andb_true_iff in H as [H Hchildren]. apply andb_true_iff in H as [Hnames _].
  split.
  - rewrite forallb_forall in Hnames. apply Hnames. apply in_map_iff.
    now exists (k, child).
  - rewrite forallb_forall in Hchildren. exact (Hchildren (k, child) Hin).
Qed.

(** The path of a file below the directory at [root] starts with [root]
    and its separator. *)
Lemma file_in_path (root : string) (n : node) (dir name : string) :
  file_in root n dir name ->
  well_formed n = true ->
  exists rest, join dir name = prefix_of root ++ rest.
Proof.
  induction 1 as [root es name data Hin | root es d child dir name Hin _ IH]; intros Hwf.
  - destruct (well_formed_entry es name (File data) Hwf Hin) as [Hplain _].
    apply plain_name_parts in Hplain as (_ & _ & _ & _ & Hsep).
    exists name. now apply join_prefix.
  - destruct (well_formed_entry es d child Hwf Hin) as [Hplain Hchild].
    apply plain_name_parts in Hplain as (Hne & _ & _ & _ & Hsep).
    destruct (IH Hchild) as (rest & ->).
    rewrite prefix_of_join by assumption.
    exists (d ++ String sep rest). now rewrite !append_assoc.
Qed.

(** C5: a matching file in a nested subdirectory is a conversion target
    if and only if the recursive flag is set; without the flag every
    target is an entry of the top-level directory. *)
Theorem nested_files_need_the_recursive_flag (directory : string) (w : World)
    (es : list (string * node)) (d : string) (child : node) (dir name : string) :
  lookup (fs w) directory = Some (Dir es) ->
  well_formed (Dir es) = true ->
  In (d, child) es ->
  file_in (join directory d) child dir name ->
  is_webp name = true ->
  (forall recursive,
     In (join dir name) (conversion_targets (fs w) directory recursive)
     <-> recursive = true)
  /\ (forall path,
        In path (conversion_targets (fs w) directory false) ->
        exists entry, In entry (map fst es) /\ path = join directory entry)
  /\ (forall quality recursive,
        batch_convert_webp_to_jpeg directory quality recursive w
        = for_each (conversion_targets (fs w) directory recursive)
            (fun path => convert_webp_to_jpeg path None quality ;;; ret tt) w).
Proof.
  intros Hlook Hwf Hin Hfile Hweb.
  assert (Htop : forall path,
             In path (conversion_targets (fs w) directory false) ->
             exists entry, In entry (map fst es) /\ path = join directory entry).
  { intros path Hp. apply in_conversion_targets in Hp as (root & n' & Hc & _ & ->).
    unfold considered, listdir in Hc. rewrite Hlook in Hc.
    apply in_map_iff in Hc as (entry & [= <- <-] & He). now exists entry. }
  split; [|split; [exact Htop|]].
  - intros [|]; split; intros H; try reflexivity; try discriminate.
    + apply in_conversion_targets.
      destruct (walk_node_finds directory (Dir es) dir name
                  (file_deeper _ _ _ _ _ _ Hin Hfile)) as (dirs & files & Hw & Hf).
      exists dir, name. split; [|now split].
      unfold considered, os_walk. rewrite Hlook.
      apply in_flat_map. exists (dir, dirs, files). split; [exact Hw|].
      apply in_map_iff. now exists name.
    + exfalso. destruct (Htop _ H) as (entry & He & Heq).
      apply in_map_iff in He as ([k c] & <- & Hk). simpl in Heq.
      destruct (well_formed_entry es k c Hwf Hk) as [Hkplain _].
      apply plain_name_parts in Hkplain as (_ & _ & _ & _ & Hksep).
      destruct (well_formed_entry es d child Hwf Hin) as [Hdplain Hchild].
      apply plain_name_parts in Hdplain as (Hdne & _ & _ & _ & Hdsep).
      destruct (file_in_path _ _ _ _ Hfile Hchild) as (rest & Hshape).
      rewrite Hshape, prefix_of_join, (join_prefix directory k) in Heq by assumption.
      rewrite append_assoc in Heq. apply append_inv_head in Heq.
      rewrite <- Heq, !contains_app in Hksep. simpl in Hksep.
      rewrite orb_true_r in Hksep. discriminate.
  - intros quality recursive. apply batch_as_targets.
    unfold isdir. now rewrite Hlook.
Qed.

(** Saving, and so the [try] block, changes the file system at most by
    storing into the file it opened. *)
Lemma Image_save_fs (img : Imaging.image) (path : string) (quality : Z) (w : World) :
  match Image_save img path quality w with
  | Return _ w' | Raise _ w' =>
      fs w' = fs w
      \/ exists handle data,
           open_wb (fs w) path = Ok handle /\ fs w' = store (fs w) handle data
  end.
Proof.
  unfold Image_save.
  destruct (open_wb (fs w) path) as [handle|e]; [|now left].
  destruct (encode_jpeg img quality) as [encoded|e]; simpl.
  - right. now exists handle, encoded.
  - destruct (negb (exists_ (fs w) path)); [now left|]. right. now exists handle, "".
Qed.

Lemma conversion_steps_fs (input_path : string) (output_path : option string)
    (quality : Z) (w : World) :
  match conversion_steps input_path output_path quality w with
  | Return _ w' | Raise _ w' =>
      fs w' = fs w
      \/ exists handle data,
           open_wb (fs w) (default_output_path input_path output_path) = Ok handle
           /\ fs w' = store (fs w) handle data
  end.
Proof.
  destruct (conversion_steps_cases input_path output_path quality w)
    as [(e & ->)|(bitmap & ->)]; [now left|].
  unfold bind.
  pose proof (Image_save_fs bitmap (default_output_path input_path output_path)
                quality w) as H.
  destruct (Image_save bitmap (default_output_path input_path output_path) quality w);
    exact H.
Qed.

(** The [try] block and a loop of attempts keep every directory a
    directory. *)
Lemma conversion_steps_keeps_dirs (input_path : string) (output_path : option string)
    (quality : Z) (w : World) :
  match conversion_steps input_path output_path quality w with
  | Return _ w' | Raise _ w' => dirs_kept (fs w) (fs w')
  end.
Proof.
  pose proof (conversion_steps_fs input_path output_path quality w) as H.
  destruct (conversion_steps input_path output_path quality w) as [r w'|e w'];
    (destruct H as [->|(handle & data & Hopen & ->)];
     [apply dirs_kept_refl | exact (store_keeps_dirs _ _ _ _ Hopen)]).
Qed.





End WalkerTargets.

(** ** The command line *)

Section Main.
Context {codec : Codec}.
Import FileSystem.

(** C7, as the code has it: when the input is a directory and a non-empty
    output path is given, [main] prints the warning and then runs the
    walker, which never hands an output path to the converter: it ends
    normally, and after the warning the printed lines are, in order, one
    report per conversion target, each confirmation naming the path
    derived from its input. *)
Theorem output_is_ignored_for_a_directory (args : Args) (w : World) (given : string) :
  command args = Some "webp2jpeg" ->
  isdir (fs w) (input args) = true ->
  output args = Some given ->
  given <> "" ->
  main args w
  = for_each (conversion_targets (fs w) (input args) (recursive args))
      (fun path => convert_webp_to_jpeg path None (quality args) ;;; ret tt)
      (mkWorld (fs w) (stdout w ++ [warning_line]))
  /\ exists w' lines,
       main args w = Return tt w'
       /\ stdout w' = (stdout w ++ warning_line :: lines)%list
       /\ Forall2 reports (conversion_targets (fs w) (input args) (recursive args)) lines.
Proof.
  intros Hcmd Hdir Hout Hgiven.
  assert (E : main args w
              = batch_convert_webp_to_jpeg (input args) (quality args) (recursive args)
                  (mkWorld (fs w) (stdout w ++ [warning_line]))).
  { unfold main. rewrite Hcmd. simpl. unfold bind at 1. rewrite Hdir.
    rewrite Hout. simpl.
    destruct (String.eqb_spec given ""); [contradiction|]. reflexivity. }
  rewrite E.
  split;
    [exact (batch_as_targets _ _ _ (mkWorld (fs w) (stdout w ++ [warning_line])) Hdir)|].
  destruct (failures_log (input args) (quality args) (recursive args)
              (mkWorld (fs w) (stdout w ++ [warning_line])) Hdir)
    as (w' & lines & Hrun & Hlines & Hreports).
  exists w', lines. split; [exact Hrun|]. split; [|exact Hreports].
  rewrite Hlines. simpl. now rewrite <- app_assoc.
Qed.


End Main.

(** ** The walk as a generator *)

Section LazyWalk.
Context {codec : Codec}.
Import PyStr OsPath PathFacts FileSystem FsFacts.

(** An attempt on an entry of a directory ends, keeps the directories and
    touches nothing but a file of that directory. *)
Lemma attempt_in_directory (quality : Z) (top file : string) (cs : list string)
    (es : list (string * node)) (w : World) :
  resolve (fs w) top = Some cs ->
  get (fs w) cs = Some (Dir es) ->
  plain_name file = true ->
  exists w',
    attempt quality (join top file) w = Return tt w'
    /\ dirs_kept (fs w) (fs w')
    /\ untouched cs (fs w) (fs w').
Proof.
  intros R G Hplain.
  pose proof (conversion_steps_fs (join top file) None quality w) as F.
  unfold attempt, bind, convert_webp_to_jpeg, try_except.
  assert (K : forall w', (fs w' = fs w
                          \/ exists handle data,
                               open_wb (fs w) (default_output_path (join top file) None)
                               = Ok handle
                               /\ fs w' = store (fs w) handle data) ->
                         dirs_kept (fs w) (fs w') /\ untouched cs (fs w) (fs w')).
  { intros w' [->|(handle & data & Hopen & ->)];
      [split; [apply dirs_kept_refl | apply untouched_refl]|].
    split; [exact (store_keeps_dirs _ _ _ _ Hopen)|].
    pose proof (resolve_inv _ _ _ R) as [Hempty _].
    assert (Htop : top <> "") by (intros ->; discriminate).
    apply plain_name_parts in Hplain as (_ & _ & _ & _ & Hsep).
    destruct (default_output_in_directory top file Htop Hsep) as (name & Eout & Hname).
    rewrite Eout in Hopen.
    pose proof (open_wb_free _ _ _ _
                  (eq_trans Hopen (f_equal Ok (open_wb_join _ _ _ _ _ _ R G Hname Hopen))))
      as Hfree.
    rewrite (open_wb_join _ _ _ _ _ _ R G Hname Hopen). unfold store. simpl.
    intros P [D|(d & rest & x & -> & Gd)].
    - apply put_frame_diverge. now apply diverge_extend.
    - apply put_frame_diverge. apply diverge_children.
      intros ->. exact (Hfree x Gd). }
  destruct (conversion_steps (join top file) None quality w) as [r w1|e w1].
  - exists w1. split; [reflexivity|]. now apply K.
  - eexists. split; [reflexivity|]. simpl. now apply K.
Qed.

Lemma resolve_kept (fs fs' : node) (p : string) (cs : list string) :
  dirs_kept fs fs' -> resolve fs p = Some cs -> resolve fs' p = Some cs.
Proof.
  intros K. unfold resolve. destruct (String.eqb p ""); [discriminate|].
  now apply walk_components_kept.
Qed.

(** The loop body on one directory ends, keeps the directories and
    touches nothing but files of that directory. *)
Lemma files_loop (quality : Z) (top : string) (cs dirs : list string) (files : list string) :
  forall (w : World) (es : list (string * node)),
    resolve (fs w) top = Some cs ->
    get (fs w) cs = Some (Dir es) ->
    forallb plain_name files = true ->
    exists w',
      walk_body quality (top, dirs, files) w = Return tt w'
      /\ dirs_kept (fs w) (fs w')
      /\ untouched cs (fs w) (fs w').
Proof.
  induction files as [|file files IH]; intros w es R G Hplain.
  - exists w. split; [reflexivity|]. split; [apply dirs_kept_refl | apply untouched_refl].
  - simpl in Hplain. apply andb_true_iff in Hplain as [Hfile Hfiles].
    assert (Hstep : exists w1,
               (if is_webp file
                then convert_webp_to_jpeg (join top file) None quality ;;; ret tt
                else ret tt) w = Return tt w1
               /\ dirs_kept (fs w) (fs w1) /\ untouched cs (fs w) (fs w1)).
    { destruct (is_webp file).
      - exact (attempt_in_directory quality top file cs es w R G Hfile).
      - exists w. split; [reflexivity|].
        split; [apply dirs_kept_refl | apply untouched_refl]. }
    destruct Hstep as (w1 & E1 & K1 & U1).
    destruct (K1 cs es G) as (es1 & G1).
    destruct (IH w1 es1 (resolve_kept _ _ _ _ K1 R) G1 Hfiles) as (w' & E' & K' & U').
    exists w'. split; [|split].
    + cbn [walk_body for_each]. unfold bind at 1. rewrite E1. exact E'.
    + exact (dirs_kept_trans _ _ _ K1 K').
    + exact (untouched_trans _ _ _ _ U1 U').
Qed.

Lemma find_entry_unique (es : list (string * node)) (d : string) (child : node) :
  unique_names (map fst es) = true -> In (d, child) es -> find_entry d es = Some child.
Proof.
  induction es as [|[k c] es IH]; simpl; [contradiction|].
  intros U [E|Hin].
  - injection E as -> ->. now rewrite String.eqb_refl.
  - apply andb_true_iff in U as [Hk U].
    destruct (String.eqb_spec k d) as [->|N]; [|now apply IH].
    exfalso. apply negb_true_iff in Hk.
    assert (X : existsb (String.eqb d) (map fst es) = true).
    { apply existsb_exists. exists d. split; [|apply String.eqb_refl].
      apply in_map_iff. now exists (d, child). }
    congruence.
Qed.

(** The walk of the subdirectories, one after the other. *)
Lemma subdirs_loop (fuel : nat) (quality : Z) (top : string) (cs : list string) :
  lazy_agrees fuel quality ->
  forall (l : list (string * node)) (w : World),
    resolve (fs w) top = Some cs ->
    (exists es, get (fs w) cs = Some (Dir es)) ->
    (forall d child, In (d, child) l -> is_dir child = true ->
                     get (fs w) (cs ++ [d]) = Some child) ->
    unique_names (map fst l) = true ->
    forallb plain_name (map fst l) = true ->
    forallb (fun e => well_formed (snd e)) l = true ->
    Forall (fun e => (height (snd e) < fuel)%nat) l ->
    exists w',
      for_each (dirnames l) (fun d => walk_lazy fuel (join top d) quality) w = Return tt w'
      /\ for_each (flat_map (fun e => walk_node (join top (fst e)) (snd e)) l)
           (walk_body quality) w = Return tt w'
      /\ dirs_kept (fs w) (fs w')
      /\ (forall P, diverge cs P -> get (fs w') P = get (fs w) P).
Proof.
  intros IHfuel. induction l as [|[d child] l IH]; intros w R G Hnodes U Hplain Hwf Hh.
  - exists w. repeat split; try reflexivity. apply dirs_kept_refl.
  - simpl in U, Hplain, Hwf.
    apply andb_true_iff in U as [Hd U]. apply andb_true_iff in Hplain as [Hdplain Hplain].
    apply andb_true_iff in Hwf as [Hchild Hwf].
    inversion Hh as [|? ? Hhd Hhl]; subst.
    destruct child as [data|sub].
    + destruct (IH w R G) as (w' & E1 & E2 & K & F); try assumption.
      { intros d' c' Hin. apply Hnodes. now right. }
      exists w'. now repeat split.
    + destruct G as (es & G).
      pose proof (Hnodes d (Dir sub) (or_introl eq_refl) eq_refl) as Gd.
      destruct (IHfuel (join top d) (Dir sub) (cs ++ [d])%list w
                  (resolve_join _ _ _ _ _ R G Hdplain) Gd Hchild Hhd)
        as (w1 & L1 & S1 & K1 & F1).
      destruct (IH w1) as (w' & L2 & S2 & K2 & F2); try assumption.
      { exact (resolve_kept _ _ _ _ K1 R). }
      { exact (K1 cs es G). }
      { intros d' c' Hin Hdir. rewrite F1; [apply Hnodes; [now right | assumption]|].
        apply diverge_children. intros <-.
        apply negb_true_iff in Hd.
        assert (X : existsb (String.eqb d) (map fst l) = true).
        { apply existsb_exists. exists d. split; [|apply String.eqb_refl].
          apply in_map_iff. now exists (d, c'). }
        congruence. }
      exists w'. split; [|split; [|split]].
      * change (dirnames ((d, Dir sub) :: l)) with (d :: dirnames l).
        cbn [for_each]. unfold bind at 1. rewrite L1. exact L2.
      * cbn [flat_map fst snd]. rewrite for_each_app. unfold bind at 1.
        rewrite S1. exact S2.
      * exact (dirs_kept_trans _ _ _ K1 K2).
      * intros P D. rewrite (F2 P D). apply F1. now apply diverge_extend.
Qed.

(** The generator and the walk of the tree as it was at the start run the
    same loop. *)
Lemma walk_lazy_agrees (quality : Z) (fuel : nat) : lazy_agrees fuel quality.
Proof.
  induction fuel as [|fuel IHfuel]; intros top n cs w R G Hwf Hh; [lia|].
  cbn [walk_lazy]. unfold lookup. rewrite R, G.
  destruct n as [data|es].
  - exists w. repeat split; try reflexivity. apply dirs_kept_refl.
  - pose proof Hwf as Hwf'. simpl in Hwf'.
    apply andb_true_iff in Hwf' as [Hwf' Hchildren].
    apply andb_true_iff in Hwf' as [Hplain Hunique].
    assert (Hfiles : forallb plain_name (filenames es) = true).
    { apply forallb_forall. intros f Hf. unfold filenames in Hf.
      apply in_map_iff in Hf as (e & <- & He). apply filter_In in He as [He _].
      rewrite forallb_forall in Hplain. apply Hplain. now apply in_map. }
    destruct (files_loop quality top cs (dirnames es) (filenames es) w es R G Hfiles)
      as (w1 & E1 & K1 & U1).
    destruct (subdirs_loop fuel quality top cs IHfuel es w1) as (w' & L2 & S2 & K2 & F2);
      try assumption.
    { exact (resolve_kept _ _ _ _ K1 R). }
    { exact (K1 cs es G). }
    { intros d child Hin Hdir. destruct child as [data|sub]; [discriminate|].
      assert (Gd : get (fs w) (cs ++ [d]) = Some (Dir sub)).
      { rewrite get_app, G. simpl. now rewrite (find_entry_unique es d (Dir sub)). }
      rewrite <- Gd. apply U1. right. now exists d, [], sub. }
    { simpl in Hh. apply Forall_forall. intros e He.
      assert (height (snd e) <= list_max (map (fun e => height (snd e)) es))%nat; [|lia].
      assert (Forall (fun k => k <= list_max (map (fun e => height (snd e)) es))%nat
                (map (fun e => height (snd e)) es)) as X by now apply list_max_le.
      rewrite Forall_forall in X. apply X. now apply in_map with (f := fun e => height (snd e)). }
    exists w'. split; [|split; [|split]].
    + unfold bind at 1. rewrite E1. exact L2.
    + cbn [walk_node for_each]. unfold bind at 1. rewrite E1. exact S2.
    + exact (dirs_kept_trans _ _ _ K1 K2).
    + intros P D. rewrite (F2 P D). apply U1. now left.
Qed.

(** X11: on a well-formed tree, the loop over the lazily listed walk is
    the loop the walker is modelled with: what the conversions write
    during a recursive walk never changes what the walk goes on to
    visit. *)
Lemma os_walk_lazy (directory : string) (quality : Z) (w : World) (n : node) :
  lookup (fs w) directory = Some n ->
  well_formed n = true ->
  walk_lazy (S (height n)) directory quality w
  = batch_convert_webp_to_jpeg directory quality true w.
Proof.
  intros L Hwf. unfold batch_convert_webp_to_jpeg, os_walk. rewrite L.
  unfold lookup in L. destruct (resolve (fs w) directory) as [cs|] eqn:R; [|discriminate].
  destruct (walk_lazy_agrees quality (S (height n)) directory n cs w R L Hwf)
    as (w' & E1 & E2 & _); [lia|].
  rewrite E1. symmetry. exact E2.
Qed.

End LazyWalk.

(** ** The properties on sample trees *)

Section Samples.
#[local] Existing Instance Raw.codec.
Import FileSystem.

(** In [pics/], [b.WEBP] has the extension [.webp] and is a target. *)
Lemma walker_converts_names_ending_in_webp_witness :
  isdir (fs (Raw.world_of Raw.pics)) "pics" = true
  /\ In "pics/b.WEBP" (conversion_targets Raw.pics "pics" false).
Proof.
  split; [reflexivity|].
  destruct (walker_converts_names_ending_in_webp "pics" 90 false
              (Raw.world_of Raw.pics) eq_refl) as (_ & _ & H).
  apply (H "pics" "b.WEBP"); [right; left; reflexivity | reflexivity].
Defined.

(** C4 as stated fails on a file named [.webp]: it has no extension, its
    output path is [.webp.jpg], and the walker converts it. *)
Lemma file_named_dot_webp_is_converted :
  In ("pics", ".webp") (considered Raw.tree "pics" false)
  /\ OsPath.splitext ".webp" = (".webp", "")
  /\ extension ".webp" <> ".webp"
  /\ In "pics/.webp" (conversion_targets Raw.tree "pics" false)
  /\ exists w',
       batch_convert_webp_to_jpeg "pics" 90 false (Raw.world_of Raw.tree) = Return tt w'
       /\ In "Converted: pics/.webp -> pics/.webp.jpg" (stdout w').
Proof.
  split; [do 4 right; left; reflexivity|].
  split; [reflexivity|].
  split; [discriminate|].
  split; [do 3 right; left; reflexivity|].
  eexists. split; [vm_compute; reflexivity|].
  do 3 right. left. reflexivity.
Qed.

(** In the sample tree, [pics/sub/n.WebP] is converted with the flag and
    not without it. *)
Lemma nested_files_need_the_recursive_flag_witness :
  In "pics/sub/n.WebP" (conversion_targets Raw.tree "pics" true)
  /\ ~ In "pics/sub/n.WebP" (conversion_targets Raw.tree "pics" false).
Proof.
  destruct (nested_files_need_the_recursive_flag "pics" (Raw.world_of Raw.tree)
              [("a.webp", File Raw.rgba_file);
               ("bad.webp", File "not an image");
               ("dir.webp", Dir [("x.webp", File Raw.rgb_file)]);
               ("sub", Dir [("n.WebP", File Raw.la_file); ("notes.txt", File "text")]);
               (".webp", File Raw.rgb_file);
               ("z.webp", File Raw.rgb_file)]
              "sub"
              (Dir [("n.WebP", File Raw.la_file); ("notes.txt", File "text")])
              "pics/sub" "n.WebP"
              eq_refl eq_refl
              (or_intror (or_intror (or_intror (or_introl eq_refl))))
              (file_here "pics/sub"
                 [("n.WebP", File Raw.la_file); ("notes.txt", File "text")]
                 "n.WebP" Raw.la_file (or_introl eq_refl))
              eq_refl) as (H & _ & _).
  split.
  - apply (H true). reflexivity.
  - intros Hin. apply (H false) in Hin. discriminate Hin.
Defined.



(** With [-o out.jpg] on the directory [pics/], the warning comes first. *)
Lemma output_is_ignored_for_a_directory_witness :
  exists w' lines,
    main (mkArgs (Some "webp2jpeg") "pics" (Some "out.jpg") 90 false)
      (Raw.world_of Raw.pics) = Return tt w'
    /\ stdout w' = warning_line :: lines
    /\ Forall2 reports ["pics/a.webp"; "pics/b.WEBP"] lines.
Proof.
  exact (proj2 (output_is_ignored_for_a_directory
                  (mkArgs (Some "webp2jpeg") "pics" (Some "out.jpg") 90 false)
                  (Raw.world_of Raw.pics) "out.jpg"
                  eq_refl eq_refl eq_refl
                  (fun H : "out.jpg" = "" => eq_ind "out.jpg"
                     (fun s => match s with EmptyString => False | String _ _ => True end)
                     I "" H))).
Defined.

(** C7 as stated fails for an empty output path: with [-o ""] on the
    directory [pics/] the output path is ignored and no warning is
    printed. *)
Lemma empty_output_path_gets_no_warning :
  let args := mkArgs (Some "webp2jpeg") "pics" (Some "") 90 false in
  let w := Raw.world_of Raw.pics in
  command args = Some "webp2jpeg"
  /\ isdir (fs w) (input args) = true
  /\ output args = Some ""
  /\ exists w',
       main args w = Return tt w'
       /\ stdout w' = ["Converted: pics/a.webp -> pics/a.jpg";
                       "Converted: pics/b.WEBP -> pics/b.jpg"]
       /\ ~ In warning_line (stdout w').
Proof.
  intros args w.
  split; [reflexivity|]. split; [reflexivity|]. split; [reflexivity|].
  eexists. split; [vm_compute; reflexivity|].
  split; [reflexivity|].
  intros [H|[H|[]]]; discriminate H.
Qed.


(** The scenario of the specification: [pics/] with [a.webp], [b.WEBP]
    and [c.png], without recursion.  Two conversions are confirmed,
    [pics/a.jpg] and [pics/b.jpg] appear and [c.png] is as before. *)
Example scenario_pics :
  exists w',
    batch_convert_webp_to_jpeg "pics" 90 false (Raw.world_of Raw.pics) = Return tt w'
    /\ stdout w' = ["Converted: pics/a.webp -> pics/a.jpg";
                    "Converted: pics/b.WEBP -> pics/b.jpg"]
    /\ listdir (fs w') "pics" = Ok ["a.webp"; "b.WEBP"; "c.png"; "a.jpg"; "b.jpg"]
    /\ read_file (fs w') "pics/c.png" = Ok Raw.la_file.
Proof.
  eexists. split; [vm_compute; reflexivity|].
  repeat split; reflexivity.
Qed.

End Samples.

(** * Further properties of the script *)

Import PyStr OsPath PathFacts FsFacts.

(** ** Stores and the files around them *)

Module StoreFacts.

Lemma find_entry_set_same (name : string) (new : node) (es : list (string * node)) :
  find_entry name (set_entry name new es) = Some new.
Proof.
  induction es as [|[k c] es IH]; simpl.
  - now rewrite String.eqb_refl.
  - destruct (String.eqb_spec k name) as [->|N]; simpl.
    + now rewrite String.eqb_refl.
    + destruct (String.eqb_spec k name); [contradiction | exact IH].
Qed.

(** What was stored at a handle is found there. *)
Lemma get_put_same (parent : list string) :
  forall (n : node) (name : string) (new : node) (es : list (string * node)),
    get n parent = Some (Dir es) ->
    get (put n parent name new) (parent ++ [name]) = Some new.
Proof.
  induction parent as [|c parent IH]; intros n name new es G.
  - simpl in G. injection G as ->. simpl. now rewrite find_entry_set_same.
  - destruct n as [d|l]; [discriminate|]. simpl in G.
    destruct (find_entry c l) as [child|] eqn:Hc; [|discriminate].
    simpl. rewrite (find_entry_update_same _ _ _ _ Hc). exact (IH child name new es G).
Qed.

Lemma open_wb_inv (fs : node) (p : string) (handle : list string * string) :
  open_wb fs p = Ok handle ->
  String.eqb p "" = false
  /\ walk_components fs [] (removelast (split_sep p)) = Some (fst handle)
  /\ (exists es, get fs (fst handle) = Some (Dir es))
  /\ snd handle = last (split_sep p) ""
  /\ step (fst handle) (snd handle) = (fst handle ++ [snd handle])%list
  /\ (forall x, get fs (fst handle ++ [snd handle]) <> Some (Dir x)).
Proof.
  intros H. pose proof H as H0. unfold open_wb in H.
  destruct (String.eqb p ""); [discriminate|].
  destruct (walk_components fs [] (removelast (split_sep p))) as [par|]; [|discriminate].
  destruct (get fs par) as [[d|l]|] eqn:G; try discriminate.
  destruct (String.eqb (last (split_sep p) "") "") eqn:E1; [discriminate|].
  destruct (String.eqb (last (split_sep p) "") ".") eqn:E2; [discriminate|].
  destruct (String.eqb (last (split_sep p) "") "..") eqn:E3; [discriminate|].
  simpl in H.
  assert (handle = (par, last (split_sep p) "")) as ->
    by (destruct (get fs (par ++ [last (split_sep p) ""])) as [[d|l']|];
        try discriminate; now injection H as <-).
  simpl. repeat split; try reflexivity.
  - now exists l.
  - unfold step. now rewrite E1, E2, E3.
  - exact (open_wb_free fs p par _ H0).
Qed.

(** After a store, the path that was opened names the stored file. *)
Lemma lookup_store (fs : node) (p : string) (handle : list string * string)
    (data : string) :
  open_wb fs p = Ok handle ->
  resolve (store fs handle data) p = Some (fst handle ++ [snd handle])%list
  /\ lookup (store fs handle data) p = Some (File data).
Proof.
  intros Hopen.
  pose proof (store_keeps_dirs fs p handle data Hopen) as K.
  destruct (open_wb_inv fs p handle Hopen) as (Hp & W & (es & G) & Hname & Hstep & _).
  assert (R : resolve (store fs handle data) p = Some (fst handle ++ [snd handle])%list).
  { unfold resolve. rewrite Hp.
    rewrite (app_removelast_last "" (split_sep_nonempty p)), walk_components_app.
    rewrite (walk_components_kept _ _ _ _ _ K W). simpl.
    destruct (K _ _ G) as (es' & ->). rewrite <- Hname. now rewrite Hstep. }
  split; [exact R|]. unfold lookup. rewrite R.
  unfold store. exact (get_put_same _ _ _ _ _ G).
Qed.

(** Two component paths part ways or one continues the other. *)
Lemma paths_compare (a : list string) :
  forall b, diverge a b \/ (exists r, b = (a ++ r)%list) \/ (exists r, a = (b ++ r)%list).
Proof.
  induction a as [|x a IH]; intros b.
  - right. left. now exists b.
  - destruct b as [|y b].
    + right. right. now exists (x :: a).
    + destruct (String.eqb_spec x y) as [->|N].
      * destruct (IH b) as [(c & u & v & a' & b' & -> & -> & Huv)|[(r & ->)|(r & ->)]].
        -- left. exists (y :: c), u, v, a', b'. now repeat split.
        -- right. left. now exists r.
        -- right. right. now exists r.
      * left. exists [], x, y, a, b. now repeat split.
Qed.

Lemma get_prefix_dir (a : list string) :
  forall (n : node) (c : string) (b : list string) (x : node),
    get n (a ++ c :: b) = Some x -> exists es, get n a = Some (Dir es).
Proof.
  induction a as [|k a IH]; intros n c b x G.
  - simpl in *. destruct n as [d|es]; [discriminate | now exists es].
  - simpl in *. destruct n as [d|es]; [discriminate|].
    destruct (find_entry k es); [|discriminate]. exact (IH _ _ _ _ G).
Qed.

(** A store changes no regular file but the one behind the handle. *)
Lemma store_keeps_files (fs : node) (p : string) (handle : list string * string)
    (data : string) (P : list string) (d : string) :
  open_wb fs p = Ok handle ->
  get fs P = Some (File d) ->
  P <> (fst handle ++ [snd handle])%list ->
  get (store fs handle data) P = Some (File d).
Proof.
  intros Hopen G N.
  destruct (open_wb_inv fs p handle Hopen) as (_ & _ & (es & Gp) & _ & _ & Hfree).
  unfold store.
  destruct (paths_compare (fst handle ++ [snd handle]) P) as [D|[(r & E)|(r & E)]].
  - rewrite put_frame_diverge by assumption. exact G.
  - destruct r as [|c r]; [rewrite app_nil_r in E; congruence|].
    exfalso. rewrite E in G. destruct (get_prefix_dir _ _ _ _ _ G) as (x & Gx).
    exact (Hfree x Gx).
  - destruct r as [|c r]; [rewrite app_nil_r in E; congruence|].
    exfalso. destruct (exists_last (l := c :: r)) as (r' & z & Er); [discriminate|].
    rewrite Er, app_assoc in E. apply app_inj_tail in E as [E _].
    rewrite E in Gp. destruct r' as [|c' r'].
    + rewrite app_nil_r in Gp. congruence.
    + destruct (get_prefix_dir _ _ _ _ _ Gp) as (x & Gx). congruence.
Qed.

End StoreFacts.

Import StoreFacts.

Module StoreTwiceFacts.

Lemma set_entry_twice (name : string) (a b : node) (es : list (string * node)) :
  set_entry name b (set_entry name a es) = set_entry name b es.
Proof.
  induction es as [|[k c] es IH]; simpl.
  - now rewrite String.eqb_refl.
  - destruct (String.eqb_spec k name) as [->|N]; simpl.
    + now rewrite String.eqb_refl.
    + destruct (String.eqb_spec k name); [contradiction | now rewrite IH].
Qed.

Lemma update_entry_twice (c : string) (f g : node -> node) (es : list (string * node)) :
  update_entry c f (update_entry c g es) = update_entry c (fun n => f (g n)) es.
Proof.
  induction es as [|[k ch] es IH]; simpl; [reflexivity|].
  destruct (String.eqb_spec k c) as [->|N]; simpl.
  - now rewrite String.eqb_refl.
  - destruct (String.eqb_spec k c); [contradiction | now rewrite IH].
Qed.

Lemma update_entry_ext (c : string) (f g : node -> node) (es : list (string * node)) :
  (forall n, f n = g n) -> update_entry c f es = update_entry c g es.
Proof.
  intros H. induction es as [|[k ch] es IH]; simpl; [reflexivity|].
  destruct (String.eqb k c); [now rewrite H | now rewrite IH].
Qed.

(** A second store behind the same handle replaces the first. *)
Lemma put_twice (parent : list string) :
  forall (n : node) (name : string) (a b : node),
    put (put n parent name a) parent name b = put n parent name b.
Proof.
  induction parent as [|c parent IH]; intros n name a b; destruct n as [d|es];
    try reflexivity; simpl.
  - now rewrite set_entry_twice.
  - rewrite update_entry_twice. f_equal. apply update_entry_ext. intros n. apply IH.
Qed.

Lemma removelast_shorter {A : Type} (l : list A) :
  (List.length (removelast l) <= List.length l)%nat.
Proof.
  induction l as [|x l IH]; simpl; [lia|]. destruct l; simpl in *; lia.
Qed.

(** After a store the same path opens the same handle. *)
Lemma open_wb_store (fs : node) (p : string) (handle : list string * string)
    (data : string) :
  open_wb fs p = Ok handle -> open_wb (store fs handle data) p = Ok handle.
Proof.
  intros Hopen.
  pose proof (store_keeps_dirs fs p handle data Hopen) as K.
  destruct (open_wb_inv fs p handle Hopen) as (Hp & W & (es & G) & Hname & Hstep & _).
  pose proof (get_put_same (fst handle) fs (snd handle) (File data) es G) as Gs.
  fold (store fs handle data) in Gs.
  unfold open_wb. rewrite Hp, (walk_components_kept _ _ _ _ _ K W).
  destruct (K _ _ G) as (es' & ->). rewrite <- Hname.
  assert (S : String.eqb (snd handle) "" || String.eqb (snd handle) "."
              || String.eqb (snd handle) ".." = false).
  { unfold step in Hstep.
    destruct (String.eqb (snd handle) "" || String.eqb (snd handle) ".") eqn:E1.
    - exfalso. apply (f_equal (@List.length string)) in Hstep.
      rewrite List.length_app in Hstep. simpl in Hstep. lia.
    - simpl. destruct (String.eqb (snd handle) "..") eqn:E2; [|reflexivity].
      exfalso. apply (f_equal (@List.length string)) in Hstep.
      rewrite List.length_app in Hstep. simpl in Hstep.
      pose proof (removelast_shorter (fst handle)). lia. }
  rewrite S, Gs. now destruct handle.
Qed.

End StoreTwiceFacts.

Import StoreTwiceFacts.

Section ConverterEffects.
Context {codec : Codec}.
Import Imaging.

(** A conversion whose every step succeeds. *)
Lemma convert_success (input_path : string) (output_path : option string) (quality : Z)
    (w : World) (data : string) (img bitmap : image) (handle : list string * string)
    (encoded : string) :
  read_file (fs w) input_path = Ok data ->
  decode data = Ok img ->
  bitmap_to_encode img = Ok bitmap ->
  open_wb (fs w) (default_output_path input_path output_path) = Ok handle ->
  encode_jpeg bitmap quality = Ok encoded ->
  convert_webp_to_jpeg input_path output_path quality w
  = Return (Some (default_output_path input_path output_path))
      (mkWorld (store (fs w) handle encoded)
         (stdout w ++ [confirm_line input_path
                         (default_output_path input_path output_path)])).
Proof.
  intros Hread Hdec Hbitmap Hopen Henc.
  rewrite (convert_after_open _ _ _ _ _ _ Hread Hdec), Hbitmap.
  unfold save_and_report, try_except, bind, lift, Image_save.
  now rewrite Hopen, Henc.
Qed.

(** X1: when the input is read and decoded, the bitmap is prepared, the
    output path can be opened and the encoder returns data, the converter
    returns the output path (the one given, or the derived one), prints
    the confirmation, and the file at the output path then holds exactly
    the encoder's data, whatever was there before. *)
Theorem converted_file_reads_back (input_path : string) (output_path : option string)
    (quality : Z) (w : World) (data : string) (img bitmap : image)
    (handle : list string * string) (encoded : string) :
  read_file (fs w) input_path = Ok data ->
  decode data = Ok img ->
  bitmap_to_encode img = Ok bitmap ->
  open_wb (fs w) (default_output_path input_path output_path) = Ok handle ->
  encode_jpeg bitmap quality = Ok encoded ->
  exists w',
    convert_webp_to_jpeg input_path output_path quality w
    = Return (Some (default_output_path input_path output_path)) w'
    /\ read_file (fs w') (default_output_path input_path output_path) = Ok encoded
    /\ stdout w' = (stdout w ++ [confirm_line input_path
                                   (default_output_path input_path output_path)])%list.
Proof.
  intros Hread Hdec Hbitmap Hopen Henc.
  eexists. split; [exact (convert_success _ _ _ _ _ _ _ _ _ Hread Hdec Hbitmap Hopen Henc)|].
  split; [|reflexivity]. simpl. unfold read_file.
  now rewrite (proj2 (lookup_store _ _ _ encoded Hopen)).
Qed.

(** A regular file away from the output is read as before after a store. *)
Lemma read_file_store (fs : node) (p : string) (handle : list string * string)
    (data path : string) (cs : list string) (d : string) :
  open_wb fs p = Ok handle ->
  resolve fs path = Some cs ->
  get fs cs = Some (File d) ->
  cs <> (fst handle ++ [snd handle])%list ->
  read_file (store fs handle data) path = Ok d.
Proof.
  intros Hopen R G N. unfold read_file, lookup.
  rewrite (resolve_kept _ _ _ _ (store_keeps_dirs _ _ _ data Hopen) R).
  now rewrite (store_keeps_files _ _ _ data _ _ Hopen G N).
Qed.

(** X2: a call of the converter changes at most the file at its output
    path.  It always returns and keeps every directory; it changes
    nothing and returns [None] when the input cannot be read or the output
    path cannot be opened for writing; and every other regular file reads
    afterwards as it did before. *)
Theorem conversion_touches_only_the_output (input_path : string)
    (output_path : option string) (quality : Z) (w : World) :
  exists r w',
    convert_webp_to_jpeg input_path output_path quality w = Return r w'
    /\ dirs_kept (fs w) (fs w')
    /\ (forall e, read_file (fs w) input_path = Err e -> r = None /\ fs w' = fs w)
    /\ (forall e, open_wb (fs w) (default_output_path input_path output_path) = Err e ->
                  r = None /\ fs w' = fs w)
    /\ (forall handle path cs d,
          open_wb (fs w) (default_output_path input_path output_path) = Ok handle ->
          resolve (fs w) path = Some cs ->
          get (fs w) cs = Some (File d) ->
          cs <> (fst handle ++ [snd handle])%list ->
          read_file (fs w') path = Ok d).
Proof.
  pose proof (conversion_steps_keeps_dirs input_path output_path quality w) as K.
  pose proof (conversion_steps_fs input_path output_path quality w) as F.
  assert (Hread : forall e, read_file (fs w) input_path = Err e ->
                            conversion_steps input_path output_path quality w = Raise e w).
  { intros e He. unfold conversion_steps, bind, Image_open. now rewrite He. }
  assert (Hopen : forall e,
             open_wb (fs w) (default_output_path input_path output_path) = Err e ->
             exists e', conversion_steps input_path output_path quality w = Raise e' w).
  { intros e He.
    destruct (conversion_steps_cases input_path output_path quality w)
      as [(e' & E)|(bitmap & E)]; [now exists e'|].
    exists e. rewrite E. unfold bind, Image_save. now rewrite He. }
  assert (Hframe : forall w1,
             (fs w1 = fs w
              \/ exists handle data,
                   open_wb (fs w) (default_output_path input_path output_path) = Ok handle
                   /\ fs w1 = store (fs w) handle data) ->
             forall handle path cs d,
               open_wb (fs w) (default_output_path input_path output_path) = Ok handle ->
               resolve (fs w) path = Some cs ->
               get (fs w) cs = Some (File d) ->
               cs <> (fst handle ++ [snd handle])%list ->
               read_file (fs w1) path = Ok d).
  { intros w1 [E|(h & data & Hh & E)] handle path cs d Hhandle R G N; rewrite E.
    - unfold read_file, lookup. now rewrite R, G.
    - assert (h = handle) as -> by congruence.
      exact (read_file_store _ _ _ _ _ _ _ Hhandle R G N). }
  unfold convert_webp_to_jpeg, try_except.
  destruct (conversion_steps input_path output_path quality w) as [r w1|e w1] eqn:E.
  - exists r, w1. split; [reflexivity|]. split; [exact K|].
    split; [intros e He; discriminate (Hread e He)|].
    split; [intros e He; destruct (Hopen e He) as (e' & E'); discriminate E'|].
    exact (Hframe w1 F).
  - eexists None, _. split; [reflexivity|]. simpl. split; [exact K|].
    split; [intros e0 He; pose proof (Hread e0 He) as X; now injection X as _ ->|].
    split; [intros e0 He; destruct (Hopen e0 He) as (e' & E'); now injection E' as _ ->|].
    exact (Hframe w1 F).
Qed.

(** X3: a successful conversion whose output is another file than its
    input can be repeated: the second call succeeds with the same path
    and leaves the file system exactly as the first call left it. *)
Theorem conversion_is_idempotent (input_path : string) (output_path : option string)
    (quality : Z) (w : World) (data : string) (img bitmap : image)
    (handle : list string * string) (encoded : string) (cs : list string) :
  read_file (fs w) input_path = Ok data ->
  decode data = Ok img ->
  bitmap_to_encode img = Ok bitmap ->
  open_wb (fs w) (default_output_path input_path output_path) = Ok handle ->
  encode_jpeg bitmap quality = Ok encoded ->
  resolve (fs w) input_path = Some cs ->
  cs <> (fst handle ++ [snd handle])%list ->
  exists w1 w2,
    convert_webp_to_jpeg input_path output_path quality w
    = Return (Some (default_output_path input_path output_path)) w1
    /\ convert_webp_to_jpeg input_path output_path quality w1
       = Return (Some (default_output_path input_path output_path)) w2
    /\ fs w2 = fs w1.
Proof.
  intros Hread Hdec Hbitmap Hopen Henc R N.
  assert (G : get (fs w) cs = Some (File data)).
  { unfold read_file, lookup in Hread. rewrite R in Hread.
    destruct (get (fs w) cs) as [[d|l]|]; try discriminate. now injection Hread as ->. }
  eexists _, _.
  split; [exact (convert_success _ _ _ _ _ _ _ _ _ Hread Hdec Hbitmap Hopen Henc)|].
  split.
  - apply (convert_success _ _ _ _ data img bitmap handle encoded); try assumption.
    + exact (read_file_store _ _ _ _ _ _ _ Hopen R G N).
    + exact (open_wb_store _ _ _ _ Hopen).
  - simpl. unfold store. apply put_twice.
Qed.

End ConverterEffects.

Section Composite.
Context {codec : Codec}.
Import Imaging.

Lemma u8_is_byte (x : Z) : byte_value (u8 x) = true.
Proof.
  unfold u8. change 255 with (Z.ones 8).
  rewrite Z.land_ones by lia. change (2 ^ 8) with 256.
  pose proof (Z.mod_pos_bound x 256 eq_refl). unfold byte_value. lia.
Qed.

Lemma DIV255_mono (a b : Z) : a <= b -> DIV255 a <= DIV255 b.
Proof.
  intros H. unfold DIV255. rewrite !Z.shiftr_div_pow2 by lia.
  apply Z.div_le_mono; [lia|].
  apply Z.add_le_mono; [apply Z.div_le_mono; lia | lia].
Qed.

(** Blending a byte onto white under any mask gives a byte between the
    source and white. *)
Lemma blend_towards_white (a s : Z) :
  0 <= a <= 255 -> 0 <= s <= 255 -> s <= u8 (BLEND a 255 s) <= 255.
Proof.
  intros Ha Hs. unfold BLEND.
  assert (X : 255 * s <= 255 * (255 - a) + s * a <= 65025) by nia.
  set (x := 255 * (255 - a) + s * a) in *.
  assert (D : s <= DIV255 x <= 255).
  { split.
    - rewrite <- (DIV255_exact s Hs). apply DIV255_mono. lia.
    - change 255 with (DIV255 65025). apply DIV255_mono. lia. }
  rewrite u8_byte by lia. exact D.
Qed.

Lemma paste_pixels_rel (R : list Z -> list Z -> Prop) (m : string) (k : nat)
    (l : list (list Z)) :
  (forall px,
     (Nat.eqb (List.length px) (List.length (getbands m)) && forallb byte_value px) = true ->
     R px (blend_pixel m (white, px, [nth k px 0]))) ->
  forallb (fun px => Nat.eqb (List.length px) (List.length (getbands m))
                     && forallb byte_value px) l = true ->
  Forall2 R l
    (map (blend_pixel m)
       (combine (combine (repeat white (List.length l)) l)
                (map (fun px => [nth k px 0]) l))).
Proof.
  intros HR. induction l as [|px l IH]; intros Hwf; simpl; [constructor|].
  simpl in Hwf. apply andb_true_iff in Hwf as [Hpx Hl].
  constructor; [now apply HR | now apply IH].
Qed.

Lemma blend_pixel_bounds (m : string) (px : list Z) (k : nat) :
  (m = "RGBA" /\ k = 3%nat) \/ (m = "LA" /\ k = 1%nat) ->
  (Nat.eqb (List.length px) (List.length (getbands m)) && forallb byte_value px) = true ->
  List.length (blend_pixel m (white, px, [nth k px 0])) = 3%nat
  /\ forallb byte_value (blend_pixel m (white, px, [nth k px 0])) = true
  /\ Forall2 (fun s o => s <= o <= 255) (rgb_bytes m px)
       (blend_pixel m (white, px, [nth k px 0])).
Proof.
  intros Hm Hpx. apply andb_true_iff in Hpx as [Hlen Hbytes]. apply Nat.eqb_eq in Hlen.
  assert (E : exists x y z a, rgb_bytes m px = [x; y; z] /\ nth k px 0 = a
                              /\ 0 <= x <= 255 /\ 0 <= y <= 255 /\ 0 <= z <= 255
                              /\ 0 <= a <= 255).
  { destruct Hm as [[-> ->]|[-> ->]]; simpl in Hlen.
    - destruct px as [|r [|g [|b [|a [|]]]]]; try discriminate.
      simpl in Hbytes. repeat (apply andb_true_iff in Hbytes as [?%byte_value_range Hbytes]).
      exists r, g, b, a. now repeat split.
    - destruct px as [|l [|a [|]]]; try discriminate.
      simpl in Hbytes. repeat (apply andb_true_iff in Hbytes as [?%byte_value_range Hbytes]).
      exists l, l, l, a. now repeat split. }
  destruct E as (x & y & z & a & E & Ea & Hx & Hy & Hz & Ha).
  unfold blend_pixel. rewrite E, Ea. cbn [nth white combine map fst snd].
  split; [reflexivity|]. split.
  - cbn [forallb]. now rewrite !u8_is_byte.
  - repeat constructor; now apply blend_towards_white.
Qed.

(** X4: for a well-formed "RGBA" or "LA" bitmap the compositing steps
    never raise, and what they hand to the encoder is a well-formed "RGB"
    bitmap of the same size in which every band value lies between the
    source's value and 255: a partly transparent pixel is only ever moved
    towards white. *)
Theorem composite_is_opaque_rgb (img : image) :
  Imaging.well_formed img = true ->
  mode_in (mode img) ["RGBA"; "LA"] = true ->
  exists comp,
    bitmap_to_encode img = Ok comp
    /\ mode comp = "RGB"
    /\ size comp = size img
    /\ Imaging.well_formed comp = true
    /\ Forall2 (fun px out => Forall2 (fun s o => s <= o <= 255)
                                (rgb_bytes (mode img) px) out)
         (pixels img) (pixels comp).
Proof.
  intros Hwf Hmode. unfold bitmap_to_encode. rewrite Hmode.
  unfold Imaging.well_formed in Hwf.
  repeat (apply andb_true_iff in Hwf as [Hwf ?]).
  destruct img as [m [wd ht] px]; cbn [mode size pixels fst snd] in *.
  match goal with H : Nat.eqb _ _ = true |- _ => apply Nat.eqb_eq in H; rename H into Hn end.
  match goal with H : forallb _ px = true |- _ => rename H into Hpx end.
  match goal with H : (0 <=? ht) = true |- _ => rename H into Hht end.
  assert (Hnew : Image_new "RGB" (wd, ht) white
                 = Ok (mkImage "RGB" (wd, ht) (repeat white (List.length px)))).
  { unfold Image_new. replace ((wd <? 0) || (ht <? 0)) with false by lia. now rewrite Hn. }
  assert (Hm : (m = "RGBA" /\ (if String.eqb m "RGBA" then 3%nat else 1%nat) = 3%nat)
               \/ (m = "LA" /\ (if String.eqb m "RGBA" then 3%nat else 1%nat) = 1%nat)).
  { unfold mode_in in Hmode. simpl in Hmode.
    destruct (String.eqb m "RGBA") eqn:E1.
    - left. apply String.eqb_eq in E1. now split.
    - destruct (String.eqb m "LA") eqn:E2; [|discriminate].
      right. apply String.eqb_eq in E2. now split. }
  set (k := if String.eqb m "RGBA" then 3%nat else 1%nat) in *.
  set (img := mkImage m (wd, ht) px).
  assert (Hmask : (if String.eqb m "RGBA" then getitem (split img) 3
                   else getitem (split img) 1) = Ok (band img k)).
  { destruct Hm as [[-> Hk]|[-> Hk]]; rewrite <- Hk; reflexivity. }
  rewrite Hnew, Hmask.
  set (out := map (blend_pixel m)
                (combine (combine (repeat white (List.length px)) px)
                         (map (fun p => [nth k p 0]) px))).
  assert (Hpaste : paste (mkImage "RGB" (wd, ht) (repeat white (List.length px)))
                     img (band img k)
                   = Ok (mkImage "RGB" (wd, ht) out)).
  { unfold paste; simpl. rewrite !Z.eqb_refl. reflexivity. }
  rewrite Hpaste. eexists. split; [reflexivity|].
  split; [reflexivity|]. split; [reflexivity|].
  pose proof (paste_pixels_rel
                (fun p o => List.length o = 3%nat /\ forallb byte_value o = true
                            /\ Forall2 (fun s v => s <= v <= 255) (rgb_bytes m p) o)
                m k px (fun p => blend_pixel_bounds m p k Hm) Hpx) as F.
  fold out in F. split.
  - unfold Imaging.well_formed. cbn [mode size pixels fst snd].
    rewrite Hwf, Hht. cbn [andb].
    assert (L : List.length out = List.length px).
    { apply Forall2_length in F. now symmetry. }
    rewrite L, Hn, Nat.eqb_refl. cbn [andb].
    apply forallb_forall. intros o Ho.
    assert (Q : Forall (fun o => List.length o = 3%nat /\ forallb byte_value o = true) out).
    { clear -F. induction F as [|p o l l' (Hlen & Hb & _) _ IH]; constructor; auto. }
    rewrite Forall_forall in Q. destruct (Q o Ho) as [Hlen Hb].
    rewrite Hlen, Hb. reflexivity.
  - cbn [pixels]. eapply Forall2_impl; [|exact F]. now intros p o (_ & _ & H).
Qed.

End Composite.

Module SuffixFacts.

Lemma endswith_inv (s t : string) :
  endswith s t = true -> exists a, s = a ++ t.
Proof.
  unfold endswith. intros H. apply andb_true_iff in H as [_ H].
  apply String.eqb_eq in H.
  exists (take (String.length s - String.length t) s).
  transitivity (take (String.length s - String.length t) s
                ++ drop (String.length s - String.length t) s);
    [symmetry; apply take_drop | now rewrite H].
Qed.

(** A name that ends in [.jpg] does not end in [.webp], in any case. *)
Lemma jpg_is_not_webp (name : string) :
  endswith name ".jpg" = true -> is_webp name = false.
Proof.
  intros H. apply endswith_inv in H as (a & ->).
  unfold is_webp. rewrite lower_app.
  destruct (endswith (lower a ++ lower ".jpg") ".webp") eqn:E; [|reflexivity].
  apply endswith_inv in E as (b & E).
  assert (X : endswith (lower a ++ lower ".jpg") "p" = true).
  { rewrite E. change ".webp" with (".web" ++ "p").
    rewrite <- append_assoc. apply endswith_app. }
  rewrite endswith_char_app in X by discriminate. discriminate X.
Qed.

(** Appending a suffix without separator extends the last component. *)
Lemma split_sep_app_plain (a t : string) :
  contains "/" t = false ->
  FileSystem.split_sep (a ++ t)
  = (removelast (FileSystem.split_sep a)
     ++ [(last (FileSystem.split_sep a) "" ++ t)%string])%list.
Proof.
  intros Ht. induction a as [|x a IH].
  - simpl. now apply FsFacts.split_sep_plain.
  - cbn [append FileSystem.split_sep]. rewrite IH.
    pose proof (FsFacts.split_sep_nonempty a) as Hne.
    destruct (FileSystem.split_sep a) as [|c cs]; [contradiction|].
    destruct (Ascii.eqb x "/").
    + destruct cs; reflexivity.
    + destruct cs; reflexivity.
Qed.

End SuffixFacts.

Import SuffixFacts.

Section WalkerEffects.
Context {codec : Codec}.

(** X6: run on a path that is not a directory, the walker without
    recursion raises the error of [os.listdir] (no such file, or not a
    directory), with nothing printed or written, while the walker with
    recursion returns normally and does nothing. *)
Theorem batch_on_a_non_directory (directory : string) (quality : Z) (w : World) :
  isdir (fs w) directory = false ->
  (exists e,
     batch_convert_webp_to_jpeg directory quality false w = Raise e w
     /\ (exn_class e = "FileNotFoundError" \/ exn_class e = "NotADirectoryError"))
  /\ batch_convert_webp_to_jpeg directory quality true w = Return tt w.
Proof.
  unfold isdir, batch_convert_webp_to_jpeg, bind, lift, listdir, os_walk.
  destruct (lookup (fs w) directory) as [[d|es]|]; try discriminate; intros _.
  - split; [eexists; split; [reflexivity | now right] | reflexivity].
  - split; [eexists; split; [reflexivity | now left] | reflexivity].
Qed.

(** The handle of a derived output path is named [*.jpg]. *)
Lemma derived_handle_name (tree : node) (input_path : string)
    (handle : list string * string) :
  open_wb tree (default_output_path input_path None) = Ok handle ->
  endswith (snd handle) ".jpg" = true.
Proof.
  intros H. destruct (open_wb_inv _ _ _ H) as (_ & _ & _ & -> & _).
  unfold default_output_path. rewrite split_sep_app_plain by reflexivity.
  rewrite last_last. apply endswith_app.
Qed.

(** An attempt keeps every directory and every regular file whose name
    does not end in [.jpg]. *)
Lemma attempt_keeps_sources (quality : Z) (path : string) (w : World) :
  exists w',
    attempt quality path w = Return tt w'
    /\ dirs_kept (fs w) (fs w')
    /\ (forall P d, get (fs w) P = Some (File d) ->
                    endswith (last P "") ".jpg" = false ->
                    get (fs w') P = Some (File d)).
Proof.
  pose proof (conversion_steps_fs path None quality w) as F.
  pose proof (conversion_steps_keeps_dirs path None quality w) as K.
  assert (Q : forall w1,
             (fs w1 = fs w
              \/ exists handle data,
                   open_wb (fs w) (default_output_path path None) = Ok handle
                   /\ fs w1 = store (fs w) handle data) ->
             forall P d, get (fs w) P = Some (File d) ->
                         endswith (last P "") ".jpg" = false ->
                         get (fs w1) P = Some (File d)).
  { intros w1 [->|(handle & data & Hopen & ->)] P d G N; [exact G|].
    apply (store_keeps_files _ _ _ _ _ _ Hopen G).
    intros ->. rewrite last_last, (derived_handle_name _ _ _ Hopen) in N. discriminate. }
  unfold attempt, bind, convert_webp_to_jpeg, try_except.
  destruct (conversion_steps path None quality w) as [r w1|e w1].
  - exists w1. split; [reflexivity|]. split; [exact K | exact (Q w1 F)].
  - eexists. split; [reflexivity|]. simpl. split; [exact K | exact (Q w1 F)].
Qed.

Lemma attempts_keep_sources (quality : Z) (paths : list string) :
  forall w,
  exists w',
    for_each paths (attempt quality) w = Return tt w'
    /\ dirs_kept (fs w) (fs w')
    /\ (forall P d, get (fs w) P = Some (File d) ->
                    endswith (last P "") ".jpg" = false ->
                    get (fs w') P = Some (File d)).
Proof.
  induction paths as [|p paths IH]; intros w.
  - exists w. split; [reflexivity|]. split; [apply dirs_kept_refl | auto].
  - destruct (attempt_keeps_sources quality p w) as (w1 & E1 & K1 & Q1).
    destruct (IH w1) as (w' & E' & K' & Q').
    exists w'. split; [|split].
    + cbn [for_each]. unfold bind. rewrite E1. exact E'.
    + exact (dirs_kept_trans _ _ _ K1 K').
    + intros P d G N. apply Q'; [now apply Q1 | exact N].
Qed.

(** X8: the walker, with or without recursion, never changes a regular
    file whose name does not end in [.jpg]: every such file, the sources
    included, reads after the run as it did before. *)
Theorem batch_keeps_files_not_named_jpg (directory : string) (quality : Z)
    (recursive : bool) (w : World) :
  isdir (fs w) directory = true ->
  exists w',
    batch_convert_webp_to_jpeg directory quality recursive w = Return tt w'
    /\ forall path cs d,
         resolve (fs w) path = Some cs ->
         get (fs w) cs = Some (File d) ->
         endswith (last cs "") ".jpg" = false ->
         read_file (fs w') path = Ok d.
Proof.
  intros Hdir. rewrite (batch_as_targets _ _ _ _ Hdir).
  destruct (attempts_keep_sources quality
              (conversion_targets (fs w) directory recursive) w) as (w' & E & K & Q).
  exists w'. split; [exact E|].
  intros path cs d R G N. unfold read_file, lookup.
  now rewrite (resolve_kept _ _ _ _ K R), (Q cs d G N).
Qed.


End WalkerEffects.

Module WalkFacts.



End WalkFacts.

Import WalkFacts.


Module ListingFacts.

Lemma get_put_parent (cs : list string) :
  forall (n : node) (name : string) (new : node) (es : list (string * node)),
    get n cs = Some (Dir es) ->
    get (put n cs name new) cs = Some (Dir (set_entry name new es)).
Proof.
  induction cs as [|c cs IH]; intros n name new es G.
  - simpl in G. injection G as ->. reflexivity.
  - destruct n as [d|l]; [discriminate|]. simpl in G.
    destruct (find_entry c l) as [child|] eqn:Hc; [|discriminate].
    simpl. rewrite (find_entry_update_same _ _ _ _ Hc). exact (IH child name new es G).
Qed.

Lemma filter_set_entry (keep : string -> bool) (name : string) (new : node)
    (es : list (string * node)) :
  keep name = false ->
  filter keep (map fst (set_entry name new es)) = filter keep (map fst es).
Proof.
  intros H. induction es as [|[k c] es IH]; simpl.
  - now rewrite H.
  - destruct (String.eqb k name); simpl; [reflexivity|]. now rewrite IH.
Qed.

End ListingFacts.

Import ListingFacts.

Section SecondRun.
Context {codec : Codec}.

(** An attempt on an entry of a directory leaves the matching names of
    that directory as they were. *)
Lemma attempt_listing (quality : Z) (top file : string) (cs : list string)
    (es : list (string * node)) (w : World) :
  resolve (fs w) top = Some cs ->
  get (fs w) cs = Some (Dir es) ->
  plain_name file = true ->
  exists w' es',
    attempt quality (join top file) w = Return tt w'
    /\ dirs_kept (fs w) (fs w')
    /\ get (fs w') cs = Some (Dir es')
    /\ filter is_webp (map fst es') = filter is_webp (map fst es).
Proof.
  intros R G Hplain.
  pose proof (conversion_steps_fs (join top file) None quality w) as F.
  pose proof (conversion_steps_keeps_dirs (join top file) None quality w) as K.
  assert (Q : forall w1,
             (fs w1 = fs w
              \/ exists handle data,
                   open_wb (fs w) (default_output_path (join top file) None) = Ok handle
                   /\ fs w1 = store (fs w) handle data) ->
             exists es', get (fs w1) cs = Some (Dir es')
                         /\ filter is_webp (map fst es') = filter is_webp (map fst es)).
  { intros w1 [->|(handle & data & Hopen & ->)]; [now exists es|].
    pose proof (derived_handle_name _ _ _ Hopen) as Hjpg.
    pose proof (resolve_inv _ _ _ R) as [Hempty _].
    assert (Htop : top <> "") by (intros ->; discriminate).
    pose proof (plain_name_parts file Hplain) as (_ & _ & _ & _ & Hsep).
    destruct (default_output_in_directory top file Htop Hsep) as (name & Eout & Hname).
    rewrite Eout in Hopen.
    rewrite (open_wb_join _ _ _ _ _ _ R G Hname Hopen) in *. cbn [fst snd] in *.
    exists (set_entry name (File data) es). unfold store. cbn [fst snd].
    split; [exact (get_put_parent _ _ _ _ _ G)|].
    apply filter_set_entry. now apply jpg_is_not_webp. }
  unfold attempt, bind, convert_webp_to_jpeg, try_except.
  destruct (conversion_steps (join top file) None quality w) as [r w1|e w1].
  - destruct (Q w1 F) as (es' & G' & E'). exists w1, es'. now repeat split.
  - destruct (Q w1 F) as (es' & G' & E'). eexists _, es'.
    split; [reflexivity|]. simpl. now repeat split.
Qed.

Lemma attempts_listing (quality : Z) (top : string) (cs : list string)
    (files : list string) :
  forall (w : World) (es : list (string * node)),
    resolve (fs w) top = Some cs ->
    get (fs w) cs = Some (Dir es) ->
    forallb plain_name files = true ->
    exists w' es',
      for_each (map (join top) files) (attempt quality) w = Return tt w'
      /\ dirs_kept (fs w) (fs w')
      /\ get (fs w') cs = Some (Dir es')
      /\ filter is_webp (map fst es') = filter is_webp (map fst es).
Proof.
  induction files as [|f files IH]; intros w es R G Hplain.
  - exists w, es. repeat split; try reflexivity; [apply dirs_kept_refl | exact G].
  - simpl in Hplain. apply andb_true_iff in Hplain as [Hf Hfiles].
    destruct (attempt_listing quality top f cs es w R G Hf) as (w1 & es1 & E1 & K1 & G1 & F1).
    destruct (IH w1 es1 (resolve_kept _ _ _ _ K1 R) G1 Hfiles)
      as (w' & es' & E' & K' & G' & F').
    exists w', es'. split; [|split; [|split]].
    + cbn [map for_each]. unfold bind. rewrite E1. exact E'.
    + exact (dirs_kept_trans _ _ _ K1 K').
    + exact G'.
    + now rewrite F'.
Qed.

(** X9: without recursion, on a directory with plain entry names, the
    walker ends and a second run would attempt exactly the same paths: the
    files it writes are never taken for inputs. *)
Theorem second_run_has_the_same_targets (directory : string) (quality : Z)
    (w : World) (es : list (string * node)) :
  lookup (fs w) directory = Some (Dir es) ->
  forallb plain_name (map fst es) = true ->
  exists w',
    batch_convert_webp_to_jpeg directory quality false w = Return tt w'
    /\ conversion_targets (fs w') directory false
       = conversion_targets (fs w) directory false.
Proof.
  intros L Hplain.
  assert (Hdir : isdir (fs w) directory = true) by (unfold isdir; now rewrite L).
  rewrite (batch_as_targets _ _ _ _ Hdir).
  unfold conversion_targets, considered, listdir. rewrite L.
  unfold lookup in L. destruct (resolve (fs w) directory) as [cs|] eqn:R; [|discriminate].
  rewrite filter_pairs, map_map. cbn [fst snd].
  assert (Hfiles : forallb plain_name (filter is_webp (map fst es)) = true).
  { apply forallb_forall. intros f Hf. apply filter_In in Hf as [Hf _].
    rewrite forallb_forall in Hplain. now apply Hplain. }
  destruct (attempts_listing quality directory cs (filter is_webp (map fst es)) w es
              R L Hfiles) as (w' & es' & E & K & G' & F').
  exists w'. split; [exact E|].
  unfold lookup. rewrite (resolve_kept _ _ _ _ K R), G'.
  rewrite filter_pairs, map_map. cbn [fst snd]. now rewrite F'.
Qed.

End SecondRun.

(** X5: the derived output path is the input path itself exactly when the
    input's extension is [.jpg]; for an input whose lowered name ends in
    [.webp] it is another path. *)
Theorem derived_output_is_the_input_for_jpg (input_path : string) :
  (default_output_path input_path None = input_path
   <-> snd (splitext input_path) = ".jpg")
  /\ (is_webp input_path = true -> default_output_path input_path None <> input_path).
Proof.
  destruct (splitext_parts input_path) as (Hsplit & _ & _).
  assert (I : default_output_path input_path None = input_path
              <-> snd (splitext input_path) = ".jpg").
  { unfold default_output_path. split; intros H.
    - rewrite Hsplit in H at 2. apply append_inv_head in H. now symmetry.
    - rewrite Hsplit at 2. now rewrite H. }
  split; [exact I|].
  intros Hweb Heq. apply I in Heq.
  assert (J : endswith input_path ".jpg" = true).
  { rewrite Hsplit, Heq. apply endswith_app. }
  rewrite (jpg_is_not_webp _ J) in Hweb. discriminate.
Qed.

Section WalkerFrame.
Context {codec : Codec}.

(** X10: on a well-formed directory the walker changes nothing outside of
    it: every path that leaves the directory's own path resolves
    afterwards to what it did before; and without recursion nothing below
    a subdirectory changes either. *)
Theorem batch_stays_below_the_directory (directory : string) (quality : Z)
    (recursive : bool) (w : World) (cs : list string) (es : list (string * node)) :
  resolve (fs w) directory = Some cs ->
  get (fs w) cs = Some (Dir es) ->
  well_formed (Dir es) = true ->
  exists w',
    batch_convert_webp_to_jpeg directory quality recursive w = Return tt w'
    /\ (forall path P,
          resolve (fs w) path = Some P -> diverge cs P ->
          lookup (fs w') path = lookup (fs w) path)
    /\ (recursive = false ->
        forall path d sub rest,
          resolve (fs w) path = Some (cs ++ d :: rest)%list ->
          get (fs w) (cs ++ [d]) = Some (Dir sub) ->
          lookup (fs w') path = lookup (fs w) path).
Proof.
  intros R G Hwf.
  destruct recursive.
  - destruct (walk_lazy_agrees quality (S (height (Dir es))) directory (Dir es) cs w
                R G Hwf (Nat.lt_succ_diag_r _)) as (w' & _ & E & K & F).
    exists w'. split; [|split; [|discriminate]].
    + unfold batch_convert_webp_to_jpeg, os_walk, lookup. rewrite R, G. exact E.
    + intros path P RP D. unfold lookup.
      rewrite (resolve_kept _ _ _ _ K RP), RP. now apply F.
  - pose proof Hwf as Hwf'. simpl in Hwf'.
    apply andb_true_iff in Hwf' as [Hwf' _]. apply andb_true_iff in Hwf' as [Hplain _].
    destruct (files_loop quality directory cs [] (map fst es) w es R G Hplain)
      as (w' & E & K & U).
    exists w'. split; [|split].
    + unfold batch_convert_webp_to_jpeg, bind, lift, listdir, lookup. rewrite R, G. exact E.
    + intros path P RP D. unfold lookup.
      rewrite (resolve_kept _ _ _ _ K RP), RP. apply U. now left.
    + intros _ path d sub rest RP Gd. unfold lookup.
      rewrite (resolve_kept _ _ _ _ K RP), RP. apply U. right. now exists d, rest, sub.
Qed.

End WalkerFrame.

(** ** Names that end in [.webp] *)

Module WebpNames.
Import PyStr OsPath PathFacts SuffixFacts.

Lemma lower_char_dot (c : ascii) : lower_char c = "."%char -> c = "."%char.
Proof.
  destruct c as [[] [] [] [] [] [] [] []]; vm_compute; intros H;
    first [reflexivity | discriminate H].
Qed.

Lemma lower_char_not_sep (c : ascii) :
  Ascii.eqb (lower_char c) sep = Ascii.eqb c sep.
Proof. destruct c as [[] [] [] [] [] [] [] []]; reflexivity. Qed.

Lemma lower_char_not_dot (c : ascii) :
  Ascii.eqb (lower_char c) extsep = Ascii.eqb c extsep.
Proof. destruct c as [[] [] [] [] [] [] [] []]; reflexivity. Qed.

Lemma contains_lower_sep (s : string) : contains sep (lower s) = contains sep s.
Proof.
  induction s as [|a s IH]; simpl; [reflexivity|]. now rewrite lower_char_not_sep, IH.
Qed.

Lemma contains_lower_dot (s : string) : contains extsep (lower s) = contains extsep s.
Proof.
  induction s as [|a s IH]; simpl; [reflexivity|]. now rewrite lower_char_not_dot, IH.
Qed.

Lemma lower_app_inv (s b u : string) :
  lower s = b ++ u -> exists a t, s = a ++ t /\ lower a = b /\ lower t = u.
Proof.
  revert s; induction b as [|x b IH]; intros s H.
  - exists "", s. now repeat split.
  - destruct s as [|c s]; [discriminate|]. simpl in H. injection H as Hc H.
    destruct (IH s H) as (a & t & -> & <- & <-).
    exists (String c a), t. simpl. now rewrite Hc.
Qed.

Lemma rfind_from_app_found (a b : string) (c : ascii) (i last : Z) :
  contains c b = false ->
  rfind_from (a ++ String c b) c i last = i + Z.of_nat (String.length a).
Proof.
  revert i last; induction a as [|x a IH]; intros i last H.
  - simpl. rewrite Ascii.eqb_refl, rfind_from_absent by assumption. lia.
  - cbn [append rfind_from String.length]. rewrite IH by assumption. lia.
Qed.

Lemma has_non_dot_spec (stem : string) :
  forall (pre rest : string),
    has_non_dot (pre ++ stem ++ rest) (Z.of_nat (String.length pre)) (String.length stem)
    = negb (all_chars extsep stem).
Proof.
  induction stem as [|c stem IH]; intros pre rest; [reflexivity|].
  cbn [String.length has_non_dot all_chars]. unfold char_at.
  rewrite Nat2Z.id, drop_app_length. cbn [append take].
  replace (Z.of_nat (String.length pre) + 1)
    with (Z.of_nat (String.length (pre ++ String c ""))) by (rewrite length_app; simpl; lia).
  replace (pre ++ String c (stem ++ rest)) with ((pre ++ String c "") ++ stem ++ rest)
    by (now rewrite append_assoc).
  rewrite IH. simpl. destruct (Ascii.eqb c extsep); reflexivity.
Qed.

Lemma take_app_length (a b : string) : take (String.length a) (a ++ b) = a.
Proof. induction a as [|x a IH]; simpl; [now destruct b | now rewrite IH]. Qed.

End WebpNames.

Import WebpNames.

(** X13: an entry name whose lowered form ends in [.webp] splits into a
    stem and a tail that is [.webp] in some case; [os.path.splitext]
    gives that tail as the extension unless the stem is empty or made of
    dots only, in which case the name has no extension at all. *)
Theorem names_ending_in_webp (name : string) :
  contains sep name = false ->
  is_webp name = true ->
  exists stem tail,
    name = stem ++ tail
    /\ lower tail = ".webp"
    /\ splitext name = (if all_chars extsep stem then (name, "") else (stem, tail)).
Proof.
  intros Hsep Hweb. unfold is_webp in Hweb.
  apply endswith_inv in Hweb as (b & Hb).
  destruct (lower_app_inv _ _ _ Hb) as (stem & tail & -> & _ & Htail).
  exists stem, tail. split; [reflexivity|]. split; [exact Htail|].
  destruct tail as [|c0 tail]; [discriminate|].
  simpl in Htail. injection Htail as Hc0 Htail. apply lower_char_dot in Hc0. subst c0.
  assert (Hdot : contains extsep tail = false)
    by (rewrite <- contains_lower_dot, Htail; reflexivity).
  unfold splitext.
  assert (Rs : rfind (stem ++ String "." tail) sep = -1)
    by (unfold rfind; now apply rfind_from_absent).
  assert (Rd : rfind (stem ++ String "." tail) extsep = Z.of_nat (String.length stem))
    by (unfold rfind; change "."%char with extsep; now rewrite rfind_from_app_found).
  rewrite Rs, Rd.
  replace (-1 <? Z.of_nat (String.length stem)) with true by lia.
  replace (-1 + 1) with (Z.of_nat (String.length "")) by reflexivity.
  replace (Z.to_nat (Z.of_nat (String.length stem) - Z.of_nat (String.length "")))
    with (String.length stem) by (simpl; lia).
  pose proof (has_non_dot_spec stem "" (String "." tail)) as H. cbn [append] in H.
  rewrite H. cbn [andb].
  destruct (all_chars extsep stem); cbn [negb]; [reflexivity|].
  unfold slice_to, slice_from. rewrite Nat2Z.id.
  now rewrite take_app_length, drop_app_length.
Qed.

(** ** The further properties on sample trees *)

Section FurtherSamples.
#[local] Existing Instance Raw.codec.

(** Converting [pics/a.webp]: the new [pics/a.jpg] holds the encoding of
    the composite. *)
Lemma converted_file_reads_back_witness :
  exists w',
    convert_webp_to_jpeg "pics/a.webp" None 90 (Raw.world_of Raw.pics)
    = Return (Some "pics/a.jpg") w'
    /\ read_file (fs w') "pics/a.jpg"
       = Ok (Raw.bytes_of [51; 2; 1; 255; 255; 255; 10; 20; 230])
    /\ stdout w' = ["Converted: pics/a.webp -> pics/a.jpg"].
Proof.
  exact (converted_file_reads_back "pics/a.webp" None 90 (Raw.world_of Raw.pics)
           Raw.rgba_file
           (Imaging.mkImage "RGBA" (2, 1) [[200; 10; 10; 0]; [10; 20; 230; 255]])
           (Imaging.mkImage "RGB" (2, 1) [[255; 255; 255]; [10; 20; 230]])
           (["pics"], "a.jpg")
           (Raw.bytes_of [51; 2; 1; 255; 255; 255; 10; 20; 230])
           eq_refl eq_refl eq_refl eq_refl eq_refl).
Defined.

(** Converting [pics/a.webp] twice. *)
Lemma conversion_is_idempotent_witness :
  exists w1 w2,
    convert_webp_to_jpeg "pics/a.webp" None 90 (Raw.world_of Raw.pics)
    = Return (Some "pics/a.jpg") w1
    /\ convert_webp_to_jpeg "pics/a.webp" None 90 w1 = Return (Some "pics/a.jpg") w2
    /\ fs w2 = fs w1.
Proof.
  apply (conversion_is_idempotent "pics/a.webp" None 90 (Raw.world_of Raw.pics)
           Raw.rgba_file
           (Imaging.mkImage "RGBA" (2, 1) [[200; 10; 10; 0]; [10; 20; 230; 255]])
           (Imaging.mkImage "RGB" (2, 1) [[255; 255; 255]; [10; 20; 230]])
           (["pics"], "a.jpg")
           (Raw.bytes_of [51; 2; 1; 255; 255; 255; 10; 20; 230])
           ["pics"; "a.webp"]);
    try reflexivity.
  intros H. discriminate H.
Defined.

(** A half transparent grey pixel of an "LA" bitmap comes out lighter. *)
Lemma composite_is_opaque_rgb_witness :
  exists comp,
    bitmap_to_encode (Imaging.mkImage "LA" (1, 1) [[100; 128]]) = Ok comp
    /\ Imaging.mode comp = "RGB"
    /\ Imaging.size comp = (1, 1)
    /\ Imaging.well_formed comp = true
    /\ Forall2 (fun px out => Forall2 (fun s o => s <= o <= 255)
                                (Imaging.rgb_bytes "LA" px) out)
         [[100; 128]] (Imaging.pixels comp).
Proof.
  exact (composite_is_opaque_rgb (Imaging.mkImage "LA" (1, 1) [[100; 128]])
           eq_refl eq_refl).
Defined.

(** [pics/c.png] is a file, not a directory. *)
Lemma batch_on_a_non_directory_witness :
  (exists e,
     batch_convert_webp_to_jpeg "pics/c.png" 90 false (Raw.world_of Raw.pics)
     = Raise e (Raw.world_of Raw.pics)
     /\ (exn_class e = "FileNotFoundError" \/ exn_class e = "NotADirectoryError"))
  /\ batch_convert_webp_to_jpeg "pics/c.png" 90 true (Raw.world_of Raw.pics)
     = Return tt (Raw.world_of Raw.pics).
Proof.
  exact (batch_on_a_non_directory "pics/c.png" 90 (Raw.world_of Raw.pics) eq_refl).
Defined.


(** The walk of the sample tree keeps the sources. *)
Lemma batch_keeps_files_not_named_jpg_witness :
  exists w',
    batch_convert_webp_to_jpeg "pics" 90 true (Raw.world_of Raw.tree) = Return tt w'
    /\ forall path cs d,
         resolve Raw.tree path = Some cs ->
         get Raw.tree cs = Some (File d) ->
         PyStr.endswith (last cs "") ".jpg" = false ->
         read_file (fs w') path = Ok d.
Proof.
  exact (batch_keeps_files_not_named_jpg "pics" 90 true (Raw.world_of Raw.tree) eq_refl).
Defined.

(** A second run on [pics/] has the targets of the first. *)
Lemma second_run_has_the_same_targets_witness :
  exists w',
    batch_convert_webp_to_jpeg "pics" 90 false (Raw.world_of Raw.pics) = Return tt w'
    /\ conversion_targets (fs w') "pics" false = ["pics/a.webp"; "pics/b.WEBP"].
Proof.
  exact (second_run_has_the_same_targets "pics" 90 (Raw.world_of Raw.pics)
           [("a.webp", File Raw.rgba_file);
            ("b.WEBP", File Raw.rgb_file);
            ("c.png", File Raw.la_file)]
           eq_refl eq_refl).
Defined.

(** The walk of [pics/sub] in the sample tree leaves [pics/a.webp] and the
    rest of [pics/] alone. *)
Lemma batch_stays_below_the_directory_witness :
  exists w',
    batch_convert_webp_to_jpeg "pics/sub" 90 true (Raw.world_of Raw.tree) = Return tt w'
    /\ lookup (fs w') "pics/a.webp" = Some (File Raw.rgba_file).
Proof.
  destruct (batch_stays_below_the_directory "pics/sub" 90 true (Raw.world_of Raw.tree)
              ["pics"; "sub"]
              [("n.WebP", File Raw.la_file); ("notes.txt", File "text")]
              eq_refl eq_refl eq_refl) as (w' & E & F & _).
  exists w'. split; [exact E|].
  rewrite (F "pics/a.webp" ["pics"; "a.webp"] eq_refl); [reflexivity|].
  exists ["pics"], "sub", "a.webp", [], []. repeat split. discriminate.
Defined.

(** On the sample tree the generator runs the loop of the walker. *)
Lemma os_walk_lazy_witness :
  walk_lazy 3 "pics" 90 (Raw.world_of Raw.tree)
  = batch_convert_webp_to_jpeg "pics" 90 true (Raw.world_of Raw.tree).
Proof.
  exact (os_walk_lazy "pics" 90 (Raw.world_of Raw.tree)
           (Dir [("a.webp", File Raw.rgba_file);
                 ("bad.webp", File "not an image");
                 ("dir.webp", Dir [("x.webp", File Raw.rgb_file)]);
                 ("sub", Dir [("n.WebP", File Raw.la_file); ("notes.txt", File "text")]);
                 (".webp", File Raw.rgb_file);
                 ("z.webp", File Raw.rgb_file)])
           eq_refl eq_refl).
Defined.

(** [..webp] ends in [.webp] and has no extension; [b.WEBP] has one. *)
Lemma names_ending_in_webp_witness :
  exists stem tail,
    "b.WEBP" = stem ++ tail
    /\ PyStr.lower tail = ".webp"
    /\ OsPath.splitext "b.WEBP"
       = (if PyStr.all_chars OsPath.extsep stem then ("b.WEBP", "") else (stem, tail)).
Proof.
  exact (names_ending_in_webp "b.WEBP" eq_refl eq_refl).
Defined.

End FurtherSamples.
